(** * FLL2025Missions: the mission launcher of a two-wheel Pybricks robot

    A shallow embedding of [FLL2025Missions.py].  The Python program talks to
    a hub, a drive base and four motors; here every call into that hardware is
    an event appended to a trace, and what the hardware answers (the buttons
    that are pressed, the heading the IMU reports, whether a device call
    raises) is read from an oracle indexed by the number of events so far.

    Numbers.  Python's [int] is unbounded, so motor speeds, angles, tones and
    durations are [Z].  The distances, velocities and accelerations given to
    [drive_cm] are [int]s or [float]s ([drive_cm(-15.5, 30, 50)]): they are
    [number]s, an [int] being a [Z] and a [float] an IEEE 754 binary64, and
    [x * 10] is computed as Python computes it, exactly on an [int] and with
    the rounding of the binary64 product on a [float].  Headings
    ([hub.imu.heading()]) are rationals [Q], which hold every [float] that
    is a number; the program's arithmetic on them (minus 360, absolute value,
    comparison) is exact rational arithmetic. *)

From Stdlib Require Import ZArith QArith Qabs List String Bool Lia Lqa.
From Stdlib Require Import DecimalString PrimFloat.
Import ListNotations.

Local Open Scope string_scope.
Local Open Scope list_scope.
Local Open Scope Z_scope.

(** ** Hardware interface (pybricks) *)

Inductive Button := LEFT | RIGHT | CENTER | BLUETOOTH.

Inductive Color := RED | ORANGE | YELLOW | GREEN | BLUE | BLACK | WHITE.

(** The four [Motor] objects of the program: ports A, B, C and D. *)
Inductive Motor := left_motor | right_motor | motor_c | motor_d.

(** The instances of Python's [Exception] that occur: [RuntimeError(msg)],
    raised by [emergency_stop_check]; [OSError(errno)], what a Pybricks
    device call raises when the device fails; [IndexError], what indexing a
    list out of range raises. *)
Inductive exn :=
| RuntimeError (msg : string)
| OSError (errno : Z)
| IndexError.

(** What can be raised.  [SystemExit] and [KeyboardInterrupt] are instances
    of [BaseException] and not of [Exception]: an [except Exception] clause
    does not catch them. *)
Inductive BaseException :=
| SystemExit
| KeyboardInterrupt
| Exception (e : exn).

Coercion Exception : exn >-> BaseException.

(** [str(e)], as [print("Error:", e)] shows it: the string an exception
    was made with, and the decimal numeral of the number [OSError(errno)]
    was made with ([str(OSError(19))] is ['19']). *)
Definition exn_str (e : exn) : string :=
  match e with
  | RuntimeError msg => msg
  | OSError errno => NilZero.string_of_int (Z.to_int errno)
  | IndexError => "list index out of range"
  end.

(** A Python number: an [int], which is unbounded, or a [float], which is an
    IEEE 754 binary64. *)
Inductive number :=
| Int (n : Z)
| Float (x : float).

Coercion Int : Z >-> number.

(** [x * 10].  The product of two [int]s is an [int]; for a [float] [x] the
    [int] 10 is converted to [10.0] and the product is the binary64 product,
    rounded to nearest. *)
Definition times_10 (x : number) : number :=
  match x with
  | Int n => Int (n * 10)
  | Float x => Float (x * 10)%float
  end.

(** The calls the program makes.  [robot_turn] is [DriveBase.turn], which the
    test double [FakeDriveBase] of [test_gyro_turn.py] provides; no function
    of [FLL2025Missions.py] calls it. *)
Inductive cmd :=
| robot_stop
| robot_settings (straight_speed straight_acceleration : number)
| robot_straight (distance_mm : number)
| robot_turn (angle : Q)
| motor_stop (m : Motor)
| motor_run (m : Motor) (speed : Z)
| motor_run_angle (m : Motor) (speed rotation_angle : Z)
| imu_reset_heading (angle : Q)
| speaker_beep (frequency duration : Z)
| light_on (c : Color)
| wait_ms (ms : Z)
| print_line (s : string).

(** Calls on the drive base and on a motor: the actuator commands.  These are
    the calls that can raise. *)
Definition is_actuator (c : cmd) : bool :=
  match c with
  | robot_stop | robot_settings _ _ | robot_straight _ | robot_turn _
  | motor_stop _ | motor_run _ _ | motor_run_angle _ _ _ => true
  | _ => false
  end.

(** Actuator commands that only stop. *)
Definition is_stop (c : cmd) : bool :=
  match c with
  | robot_stop | motor_stop _ => true
  | _ => false
  end.

(** What the program did, in order. *)
Inductive event :=
| Did (c : cmd)                         (* the call returned *)
| Failed (c : cmd) (e : BaseException)  (* the call raised [e] *)
| Pressed (bs : list Button)            (* [hub.buttons.pressed()] returned [bs] *)
| Heading (h : Q).                      (* [hub.imu.heading()] returned [h] *)

(** Where a [Some] is expected, what it holds is read at the type that is
    expected, so that an [exn] can stand where a [BaseException] is. *)
Arguments Some {A} & a.

(** The environment: what the hardware answers to the call made after [t]
    events.  [fault_at t] is what an actuator call made then raises, if it
    raises: an [OSError] of the device, or anything else. *)
Record World := {
  pressed_at : nat -> list Button;
  heading_at : nat -> Q;
  fault_at : nat -> option BaseException
}.

(** The robot as the program sees it.  [motor_speed] is the speed each motor was
    last commanded to run at, 0 when stopped (the [speed] attribute of
    [FakeMotor] in [test_gyro_turn.py]); [straight_speed] and
    [straight_acceleration] are the drive base's stored settings (its
    [last_settings]). *)
Record Robot := {
  trace : list event;
  straight_speed : number;
  straight_acceleration : number;
  motor_speed : Motor -> Z
}.

Definition tick (st : Robot) : nat := List.length (trace st).

Definition Motor_eqb (a b : Motor) : bool :=
  match a, b with
  | left_motor, left_motor | right_motor, right_motor
  | motor_c, motor_c | motor_d, motor_d => true
  | _, _ => false
  end.

Definition Button_eqb (a b : Button) : bool :=
  match a, b with
  | LEFT, LEFT | RIGHT, RIGHT | CENTER, CENTER | BLUETOOTH, BLUETOOTH => true
  | _, _ => false
  end.

(** [b in bs] *)
Definition button_in (b : Button) (bs : list Button) : bool :=
  existsb (Button_eqb b) bs.

Definition set_speed (m : Motor) (v : Z) (f : Motor -> Z) : Motor -> Z :=
  fun m' => if Motor_eqb m m' then v else f m'.

Definition log (ev : event) (st : Robot) : Robot :=
  {| trace := trace st ++ [ev];
     straight_speed := straight_speed st;
     straight_acceleration := straight_acceleration st;
     motor_speed := motor_speed st |}.

(** The effect of a call that returned.  [DriveBase.stop] stops both drive
    motors; [DriveBase.straight] and [Motor.run_angle(..., wait=True)] block
    until the motion is complete, so the motors they drive are at rest when
    they return; [DriveBase.settings] stores the two values. *)
Definition effect (c : cmd) (st : Robot) : Robot :=
  match c with
  | robot_stop | robot_straight _ | robot_turn _ =>
      {| trace := trace st;
         straight_speed := straight_speed st;
         straight_acceleration := straight_acceleration st;
         motor_speed := set_speed left_motor 0 (set_speed right_motor 0 (motor_speed st)) |}
  | robot_settings v a =>
      {| trace := trace st;
         straight_speed := v;
         straight_acceleration := a;
         motor_speed := motor_speed st |}
  | motor_stop m | motor_run_angle m _ _ =>
      {| trace := trace st;
         straight_speed := straight_speed st;
         straight_acceleration := straight_acceleration st;
         motor_speed := set_speed m 0 (motor_speed st) |}
  | motor_run m v =>
      {| trace := trace st;
         straight_speed := straight_speed st;
         straight_acceleration := straight_acceleration st;
         motor_speed := set_speed m v (motor_speed st) |}
  | _ => st
  end.

(** ** The monad of the program: state, exceptions, and loops that may not end *)

Inductive result (A : Type) :=
| Ret (a : A)                (* returned *)
| Raise (e : BaseException)  (* raised *)
| OutOfFuel.                 (* still looping when the fuel ran out *)

Arguments Ret {A} a.
Arguments Raise {A} e.
Arguments OutOfFuel {A}.

Definition M (A : Type) : Type := Robot -> result A * Robot.

Definition ret {A} (a : A) : M A := fun st => (Ret a, st).

Definition raise {A} (e : BaseException) : M A := fun st => (Raise e, st).

Definition bind {A B} (m : M A) (k : A -> M B) : M B :=
  fun st =>
    match m st with
    | (Ret a, st') => k a st'
    | (Raise e, st') => (Raise e, st')
    | (OutOfFuel, st') => (OutOfFuel, st')
    end.

Notation "x <- m ;; k" := (bind m (fun x => k))
  (at level 61, m at next level, right associativity).
Notation "m ;; k" := (bind m (fun _ => k))
  (at level 61, right associativity).

(** [try: m except Exception as e: h(e)].  What [m] raises is handled when
    it is an instance of [Exception]; anything else it raises goes on to
    the caller. *)
Definition try_except {A} (m : M A) (h : exn -> M A) : M A :=
  fun st =>
    match m st with
    | (Raise (Exception e), st') => h e st'
    | r => r
    end.

(** A block of statements, run in order. *)
Fixpoint run_steps (steps : list (M unit)) : M unit :=
  match steps with
  | [] => ret tt
  | s :: rest => s ;; run_steps rest
  end.

(** [for _ in range(n): body] *)
Fixpoint for_range (n : nat) (body : M unit) : M unit :=
  match n with
  | O => ret tt
  | S n' => body ;; for_range n' body
  end.

(** Rational comparisons as the program's [>] and [>=]. *)
Definition Qgtb (x y : Q) : bool := negb (Qle_bool x y).
Definition Qgeb (x y : Q) : bool := Qle_bool y x.

Section Program.

Variable w : World.

(** The bound on the number of iterations of each [while] loop. *)
Variable fuel : nat.

(** A call into the hardware.  An actuator call raises when the device
    fails; the call is logged either way. *)
Definition call (c : cmd) : M unit :=
  fun st =>
    if is_actuator c then
      match fault_at w (tick st) with
      | Some e => (Raise e, log (Failed c e) st)
      | None => (Ret tt, effect c (log (Did c) st))
      end
    else (Ret tt, effect c (log (Did c) st)).

(** [hub.buttons.pressed()] *)
Definition buttons_pressed : M (list Button) :=
  fun st => let bs := pressed_at w (tick st) in (Ret bs, log (Pressed bs) st).

(** [hub.imu.heading()] *)
Definition imu_heading : M Q :=
  fun st => let h := heading_at w (tick st) in (Ret h, log (Heading h) st).

Definition wait (ms : Z) : M unit := call (wait_ms ms).
Definition print (s : string) : M unit := call (print_line s).
Definition beep (frequency duration : Z) : M unit :=
  call (speaker_beep frequency duration).

(** ** Shared helpers *)

Definition beep_ok : M unit := beep 900 80.


Definition emergency_stop_check : M unit :=
  pressed <- buttons_pressed ;;
  if button_in CENTER pressed then
    call robot_stop ;;
    call (motor_stop left_motor) ;;
    call (motor_stop right_motor) ;;
    call (motor_stop motor_c) ;;
    call (motor_stop motor_d) ;;
    beep 200 300 ;;
    raise (RuntimeError "Emergency stop")
  else ret tt.

Definition setup_drive : M unit :=
  call robot_stop ;;
  call (robot_settings 300 300) ;;
  beep_ok.

(** The parameter [stop=Stop.HOLD] of the source is never read. *)
Definition drive_cm (distance_cm velocity_cm_s acceleration_cm_s2 : number) : M unit :=
  let distance_mm := times_10 distance_cm in
  let speed_mm_s := times_10 velocity_cm_s in
  let accel_mm_s2 := times_10 acceleration_cm_s2 in
  call (robot_settings speed_mm_s accel_mm_s2) ;;
  call (robot_straight distance_mm) ;;
  call robot_stop.

(** [m.run_angle(speed, degrees, then=stop, wait=True)]: the call blocks.
    No caller passes [accel] or [stop]; [accel] is never read and [stop] is
    [Stop.HOLD]. *)
Definition run_motor_for_degrees (m : Motor) (degrees speed : Z) : M unit :=
  call (motor_run_angle m speed degrees).

(** The normalization step of [gyro_turn]:
    [if heading > 180: heading -= 360]. *)
Definition normalize_heading (heading : Q) : Q :=
  if Qgtb heading 180 then (heading - 360)%Q else heading.

(** One pass through the body of [gyro_turn]'s [while True]; [true] is
    [break]. *)
Definition gyro_turn_body (target_deg : Q) (speed turn_speed : Z) : M bool :=
  emergency_stop_check ;;
  heading <- imu_heading ;;
  let heading := normalize_heading heading in
  if Qgeb (Qabs heading) (Qabs target_deg) then ret true
  else
    (if Qgtb target_deg 0 then
       call (motor_run left_motor (- speed)) ;;
       call (motor_run right_motor (turn_speed * speed))
     else
       call (motor_run left_motor (turn_speed * speed)) ;;
       call (motor_run right_motor (- speed))) ;;
    wait 10 ;;
    ret false.

Fixpoint gyro_turn_loop (n : nat) (target_deg : Q) (speed turn_speed : Z) : M unit :=
  match n with
  | O => fun st => (OutOfFuel, st)
  | S n' =>
      stop <- gyro_turn_body target_deg speed turn_speed ;;
      if stop then ret tt else gyro_turn_loop n' target_deg speed turn_speed
  end.

(** The defaults of the source are [slow_turn=False] and [axis_turn=True];
    its variable [power] is never read. *)
Definition gyro_turn (target_deg : Q) (slow_turn axis_turn : bool) : M unit :=
  call (imu_reset_heading 0) ;;
  wait 150 ;;
  let speed := if slow_turn then 100 else 400 in
  let turn_speed := if axis_turn then 1 else 3 in
  gyro_turn_loop fuel target_deg speed turn_speed ;;
  call (motor_stop left_motor) ;;
  call (motor_stop right_motor) ;;
  wait 100.

(** ** Mission implementations (0-5)

    Each mission is its block of statements, in the order of the source. *)

Definition mission_0_steps : list (M unit) :=
  [ setup_drive;
    print "Mission 0";
    drive_cm 15 30 50;
    gyro_turn 10 true true;
    wait 500;
    drive_cm 55 100 50;
    gyro_turn (-55) true true;
    drive_cm 10 30 30;
    run_motor_for_degrees motor_d (-1000) 1000;
    run_motor_for_degrees motor_c 200 1000;
    print "Turn completed";
    drive_cm (-4) 30 50;
    print "drive complete";
    gyro_turn 40 false true;
    drive_cm (-60) 30 50;
    gyro_turn 45 false true;
    drive_cm (-30) 30 50 ].

Definition mission_1_steps : list (M unit) :=
  [ setup_drive;
    print "Mission 1";
    call (imu_reset_heading 0);
    wait 200;
    drive_cm 14 30 50;
    gyro_turn 45 true true;
    run_motor_for_degrees motor_c 150 720;
    drive_cm 33 30 50;
    run_motor_for_degrees motor_c (-120) 100;
    run_motor_for_degrees motor_d (-720) 500;
    run_motor_for_degrees motor_c 180 1440;
    run_motor_for_degrees motor_d 720 360;
    drive_cm (-35) 30 30;
    wait 200;
    drive_cm 10 30 50;
    gyro_turn (-30) false true;
    drive_cm (-15) 300 50;
    run_motor_for_degrees motor_c (-120) 1000;
    gyro_turn 60 false true;
    drive_cm (-40) 300 50 ].

Definition mission_2_steps : list (M unit) :=
  [ setup_drive;
    print "Mission 2";
    call (imu_reset_heading 0);
    wait 200;
    drive_cm 37 30 50;
    for_range 3
      (run_motor_for_degrees motor_c (-180) 750 ;;
       run_motor_for_degrees motor_c 180 750);
    drive_cm (Float (-15.5)) 30 50;
    call (imu_reset_heading 0);
    wait 200;
    gyro_turn 90 true true;
    drive_cm 195 500 500 ].

Definition mission_3_steps : list (M unit) :=
  [ setup_drive;
    print "Mission 3";
    drive_cm 41 30 5;
    drive_cm (-15) 17 15;
    drive_cm 31 15 10;
    drive_cm (-50) 30 10 ].

Definition mission_4_steps : list (M unit) :=
  [ setup_drive;
    print "Mission 4";
    drive_cm 69 20 500;
    gyro_turn 43 true true;
    drive_cm 23 30 200;
    run_motor_for_degrees motor_d 180 1000;
    run_motor_for_degrees motor_c 150 300;
    wait 1000;
    run_motor_for_degrees motor_c 200 1000;
    run_motor_for_degrees motor_c (-300) 500;
    drive_cm (-22) 17 500;
    gyro_turn 140 false true;
    drive_cm 61 30 500 ].

Definition mission_5_steps : list (M unit) :=
  [ print "Mission 5#";
    setup_drive;
    call (imu_reset_heading 0);
    wait 200;
    drive_cm 73 30 100;
    gyro_turn (-90) true true;
    drive_cm 23 30 5;
    gyro_turn (-30) true true;
    drive_cm 4 30 5;
    run_motor_for_degrees motor_d (-600) 1000;
    drive_cm 10 30 5;
    run_motor_for_degrees motor_d 500 300;
    drive_cm (-35) 30 5;
    gyro_turn 31 true false;
    run_motor_for_degrees motor_d (-500) 300;
    drive_cm 10 30 5;
    run_motor_for_degrees motor_d 500 300 ].

Definition mission_0 : M unit := run_steps mission_0_steps.
Definition mission_1 : M unit := run_steps mission_1_steps.
Definition mission_2 : M unit := run_steps mission_2_steps.
Definition mission_3 : M unit := run_steps mission_3_steps.
Definition mission_4 : M unit := run_steps mission_4_steps.
Definition mission_5 : M unit := run_steps mission_5_steps.

Definition MISSION_COLORS : list Color :=
  [RED; ORANGE; YELLOW; GREEN; BLUE; BLACK].

Definition POLL_MS : Z := 50.

(** [l[i]]: Python's list indexing, which counts a negative index from the
    end and raises [IndexError] out of range. *)
Definition index {A} (l : list A) (i : Z) : M A :=
  let n := Z.of_nat (List.length l) in
  let j := if i <? 0 then i + n else i in
  if (0 <=? j) && (j <? n) then
    match nth_error l (Z.to_nat j) with
    | Some a => ret a
    | None => raise IndexError
    end
  else raise IndexError.

Definition set_mission_light (i : Z) : M unit :=
  c <- index MISSION_COLORS i ;;
  call (light_on c).

(** ** Button-to-mission launcher *)

Definition MISSIONS : list (string * M unit) :=
  [ ("Mission 0", mission_0);
    ("Mission 1", mission_1);
    ("Mission 2", mission_2);
    ("Mission 3", mission_3);
    ("Mission 4", mission_4);
    ("Mission 5", mission_5) ].


Definition show_selection (i : Z) : M unit :=
  entry <- index MISSIONS i ;;
  print (String.append "Selected: " (fst entry)) ;;
  set_mission_light i.




(** [while b in hub.buttons.pressed(): wait(20)] *)
Fixpoint wait_released (n : nat) (b : Button) : M unit :=
  match n with
  | O => fun st => (OutOfFuel, st)
  | S n' =>
      pressed <- buttons_pressed ;;
      if button_in b pressed then wait 20 ;; wait_released n' b
      else ret tt
  end.

(** [(selected + 1) % len(MISSIONS)] and [(selected - 1) % len(MISSIONS)];
    Python's [%] takes the sign of the divisor, as [Z.modulo] does. *)
Definition select_next (selected : Z) : Z :=
  (selected + 1) mod Z.of_nat (List.length MISSIONS).

Definition select_previous (selected : Z) : Z :=
  (selected - 1) mod Z.of_nat (List.length MISSIONS).

(** The first four statements of the Bluetooth branch of [main]: the
    announcement that the mission [name] starts. *)
Definition announce_start (name : string) : M unit :=
  print (String.append "STARTING (Bluetooth): " name) ;;
  beep 1000 200 ;;
  call (light_on WHITE) ;;
  wait 200.

(** The body of the Bluetooth branch of [main], from the start of the
    mission to the restored selection display, for the entry [(name, fn)]
    of the table. *)
Definition launch (entry : string * M unit) (selected : Z) : M unit :=
  let (name, fn) := entry in
  announce_start name ;;
  try_except
    (fn ;; beep 600 150)
    (fun e => print (String.append "Error: " (exn_str e)) ;; beep 200 500) ;;
  set_mission_light selected ;;
  show_selection selected.

(** One pass through the body of [main]'s [while True]; it returns the
    selection the next pass starts with.  ([right_hold_time] is written and
    never read.) *)
Definition main_body (selected : Z) : M Z :=
  emergency_stop_check ;;
  pressed <- buttons_pressed ;;
  if button_in BLUETOOTH pressed then
    entry <- index MISSIONS selected ;;
    launch entry selected ;;
    wait_released fuel BLUETOOTH ;;
    ret selected
  else
    selected <-
      (if button_in RIGHT pressed then
         let selected := select_next selected in
         show_selection selected ;;
         wait_released fuel RIGHT ;;
         ret selected
       else ret selected) ;;
    selected <-
      (if button_in LEFT pressed then
         let selected := select_previous selected in
         show_selection selected ;;
         wait_released fuel LEFT ;;
         ret selected
       else ret selected) ;;
    wait POLL_MS ;;
    ret selected.

(** What [set_mission_light(i); show_selection(i)] logs: the selection
    display. *)
Definition selection_events (i : Z) : list event :=
  let c := nth (Z.to_nat i) MISSION_COLORS RED in
  let name := nth (Z.to_nat i) (map fst MISSIONS) "" in
  [ Did (light_on c);
    Did (print_line (String.append "Selected: " name));
    Did (light_on c) ].

Fixpoint main_loop (n : nat) (selected : Z) : M Z :=
  match n with
  | O => fun st => (OutOfFuel, st)
  | S n' => selected <- main_body selected ;; main_loop n' selected
  end.

Definition main : M Z :=
  let selected := 0 in
  print "READY." ;;
  print "LEFT/RIGHT = choose Mission 0–5" ;;
  print "BLUETOOTH = START immediately" ;;
  show_selection selected ;;
  main_loop fuel selected.



End Program.

(** ** Relations between the state before and the state after *)

(** [m] takes every state to one that [R] relates it to, whatever the
    outcome. *)
Definition follows (R : Robot -> Robot -> Prop) {A} (m : M A) : Prop :=
  forall st, R st (snd (m st)).

(** The trace grew by events that all satisfy [P]. *)
Definition emits (P : event -> Prop) (st st' : Robot) : Prop :=
  exists evs, trace st' = trace st ++ evs /\ Forall P evs.

(** The drive base's stored settings are the same. *)
Definition same_settings (st st' : Robot) : Prop :=
  straight_speed st' = straight_speed st /\
  straight_acceleration st' = straight_acceleration st.

(** The calls that occur in [gyro_turn] and in the helper it calls. *)
Definition gyro_cmd (c : cmd) : bool :=
  match c with
  | robot_stop | motor_stop _ | motor_run _ _
  | imu_reset_heading _ | speaker_beep _ _ | wait_ms _ => true
  | _ => false
  end.

Definition is_read (ev : event) : bool :=
  match ev with
  | Pressed _ | Heading _ => true
  | _ => false
  end.

(** The command of an event, if it is a call. *)
Definition event_cmd (ev : event) : option cmd :=
  match ev with
  | Did c | Failed c _ => Some c
  | _ => None
  end.

(** An event that is a drive-base turn, and one that is not. *)
Definition is_robot_turn (ev : event) : bool :=
  match event_cmd ev with
  | Some (robot_turn _) => true
  | _ => false
  end.

Definition not_robot_turn (ev : event) : Prop := is_robot_turn ev = false.

(** An event that commands no actuator. *)
Definition no_actuator (ev : event) : Prop :=
  match event_cmd ev with
  | Some c => is_actuator c = false
  | None => True
  end.

(** Every motor is stopped. *)
Definition all_stopped (st : Robot) : Prop :=
  forall m, motor_speed st m = 0.

(** What [emergency_stop_check] logs when it saw CENTER in [bs] and every
    stop call returned: the read, the five stops and the beep. *)
Definition emergency_stop_events (bs : list Button) : list event :=
  [ Pressed bs;
    Did robot_stop;
    Did (motor_stop left_motor);
    Did (motor_stop right_motor);
    Did (motor_stop motor_c);
    Did (motor_stop motor_d);
    Did (speaker_beep 200 300) ].

(** No device call fails at the [n] ticks from [t] on. *)
Definition no_fault (w : World) (t n : nat) : Prop :=
  forall i, (i < n)%nat -> fault_at w (i + t) = None.

(** The poll of [gyro_turn]'s loop that starts at tick [t] goes round again:
    CENTER is not pressed, the heading read next is short of the target,
    and the two [run] calls return. *)
Definition poll_continues (w : World) (target_deg : Q) (t : nat) : Prop :=
  button_in CENTER (pressed_at w t) = false /\
  Qgeb (Qabs (normalize_heading (heading_at w (1 + t)))) (Qabs target_deg) = false /\
  no_fault w (2 + t) 2.

(** The poll that starts at tick [t] ends the loop: CENTER is pressed, or
    the heading read next has reached the target. *)
Definition poll_ends (w : World) (target_deg : Q) (t : nat) : Prop :=
  button_in CENTER (pressed_at w t) = true \/
  Qgeb (Qabs (normalize_heading (heading_at w (1 + t)))) (Qabs target_deg) = true.

(** What a poll of [gyro_turn]'s loop that starts at tick [t] logs when it
    goes round again. *)
Definition poll_events (w : World) (target_deg : Q) (speed turn_speed : Z)
           (t : nat) : list event :=
  [ Pressed (pressed_at w t);
    Heading (heading_at w (1 + t));
    Did (motor_run left_motor
           (if Qgtb target_deg 0 then - speed else turn_speed * speed));
    Did (motor_run right_motor
           (if Qgtb target_deg 0 then turn_speed * speed else - speed));
    Did (wait_ms 10) ].

(** What [k] polls in a row log when each goes round again, the first of
    them starting at tick [t]. *)
Fixpoint polls_events (w : World) (target_deg : Q) (speed turn_speed : Z)
         (t : nat) (k : nat) : list event :=
  match k with
  | O => []
  | S k' =>
      poll_events w target_deg speed turn_speed t ++
      polls_events w target_deg speed turn_speed (5 + t) k'
  end.

(** An actuator command that sets the robot in motion. *)
Definition is_motion (ev : event) : bool :=
  match event_cmd ev with
  | Some (robot_straight _) | Some (robot_turn _)
  | Some (motor_run _ _) | Some (motor_run_angle _ _ _) => true
  | _ => false
  end.

(** The state in which [gyro_turn] enters its loop: the heading was reset
    and 150 ms were waited. *)
Definition gyro_turn_head (st : Robot) : Robot :=
  log (Did (wait_ms 150)) (log (Did (imu_reset_heading 0)) st).


(** [m] never raises: it returns, or it is still looping. *)
Definition never_raises {A} (m : M A) : Prop :=
  forall st e st', m st <> (Raise e, st').


(** The five stop calls of [emergency_stop_check], in its order. *)
Definition emergency_stop_cmds : list cmd :=
  [ robot_stop;
    motor_stop left_motor;
    motor_stop right_motor;
    motor_stop motor_c;
    motor_stop motor_d ].

(** The motors a stop command stops: [robot.stop()] the two drive motors,
    [m.stop()] the motor [m]. *)
Definition stops_motor (c : cmd) (m : Motor) : bool :=
  match c with
  | robot_stop => Motor_eqb m left_motor || Motor_eqb m right_motor
  | motor_stop m' => Motor_eqb m' m
  | _ => false
  end.

(** A motor that none of the commands [cs] stops. *)
Definition not_stopped_by (cs : list cmd) (m : Motor) : Prop :=
  existsb (fun c => stops_motor c m) cs = false.

(** What [emergency_stop_check] logs when it saw CENTER in [bs] and its
    stop number [i] (0 for [robot.stop()]) is the first that raises, with
    [e]: the read, the stops before it, and the call that failed. *)
Definition failed_stop_events (bs : list Button) (i : nat) (e : BaseException)
  : list event :=
  Pressed bs ::
  map Did (firstn i emergency_stop_cmds) ++
  [Failed (nth i emergency_stop_cmds robot_stop) e].

(** The speeds [gyro_turn] runs the left and the right motor at. *)
Definition left_run_speed (target_deg : Q) (speed turn_speed : Z) : Z :=
  if Qgtb target_deg 0 then - speed else turn_speed * speed.

Definition right_run_speed (target_deg : Q) (speed turn_speed : Z) : Z :=
  if Qgtb target_deg 0 then turn_speed * speed else - speed.

(** An event that is a call of [robot.straight]. *)
Definition is_straight (ev : event) : bool :=
  match event_cmd ev with
  | Some (robot_straight _) => true
  | _ => false
  end.

(** An event that commands the drive base or one of the two drive motors
    to move or to stop. *)
Definition is_drive_cmd (ev : event) : bool :=
  match event_cmd ev with
  | Some robot_stop | Some (robot_straight _) | Some (robot_turn _) => true
  | Some (motor_stop m) | Some (motor_run m _) | Some (motor_run_angle m _ _) =>
      Motor_eqb m left_motor || Motor_eqb m right_motor
  | _ => false
  end.

(** What a release loop logs while the button is held for [k] polls: each
    poll that sees it pressed reads the buttons at tick [t], [2 + t], ...
    and waits 20 ms. *)
Fixpoint held_events (w : World) (t : nat) (k : nat) : list event :=
  match k with
  | O => []
  | S k' => Pressed (pressed_at w t) :: Did (wait_ms 20) :: held_events w (2 + t) k'
  end.

(** The two drive motors are stopped. *)
Definition drive_stopped (st : Robot) : Prop :=
  motor_speed st left_motor = 0 /\ motor_speed st right_motor = 0.

(** A statement that, when it returns, has stopped the drive last: the
    two drive motors are at rest, and the last command to the drive base or
    to a drive motor in the trace is a [robot.stop()] that returned. *)
Definition ends_with_drive_stop (s : M unit) : Prop :=
  forall st st',
    s st = (Ret tt, st') ->
    drive_stopped st' /\
    exists tr tail,
      trace st' = tr ++ Did robot_stop :: tail /\
      forallb (fun ev => negb (is_drive_cmd ev)) tail = true.


(** What [show_selection(i)] logs for an index of the table: the name, then
    the light. *)
Definition show_selection_events (w : World) (fuel : nat) (i : Z) : list event :=
  [ Did (print_line
           (String.append "Selected: "
              (nth (Z.to_nat i) (map fst (MISSIONS w fuel)) "")));
    Did (light_on (nth (Z.to_nat i) MISSION_COLORS RED)) ].

(** Nothing was done to the robot: what was logged commands no actuator,
    and the motors and the settings of the drive base are as they were. *)
Definition quiet (st st' : Robot) : Prop :=
  emits no_actuator st st' /\
  (forall m, motor_speed st' m = motor_speed st m) /\
  same_settings st st'.

(** ** Concrete runs *)

(** The robot when the program starts: nothing logged, nothing moving. *)
Definition st0 : Robot :=
  {| trace := [];
     straight_speed := 0;
     straight_acceleration := 0;
     motor_speed := fun _ => 0 |}.

(** The physics of [test_gyro_turn.py]: during [wait(ms)] the heading
    changes by [(left.speed - right.speed) * ms * 0.001 * 0.2].  For
    [gyro_turn(90)] started on [st0], whose polls read the heading at ticks
    3, 8, 13, ..., that is -1.6 degrees per poll.  No button is pressed and
    no device fails. *)
Definition w_fake : World :=
  {| pressed_at := fun _ => [];
     heading_at := fun t => (- (8 # 5) * inject_Z (Z.of_nat ((t - 3) / 5)))%Q;
     fault_at := fun _ => None |}.

(** A robot that is held in place: the heading stays 0. *)
Definition w_stuck : World :=
  {| pressed_at := fun _ => [];
     heading_at := fun _ => 0%Q;
     fault_at := fun _ => None |}.

(** A world in which the device call made at tick [t] raises [e], and
    nothing else happens. *)
Definition w_fault_at (t : nat) (e : BaseException) : World :=
  {| pressed_at := fun _ => [];
     heading_at := fun _ => 0%Q;
     fault_at := fun t' => if Nat.eqb t' t then Some e else None |}.

(** A world in which the buttons are pressed as [f] says, the robot does
    not turn and no device fails. *)
Definition w_buttons (f : nat -> list Button) : World :=
  {| pressed_at := f;
     heading_at := fun _ => 0%Q;
     fault_at := fun _ => None |}.

(** The motor of the drive base fails (errno 19, ENODEV) at tick 9: when
    mission 3 is launched on [st0], that is the [robot.straight] of its
    first [drive_cm]. *)
Definition w_unplugged : World := w_fault_at 9 (OSError 19).

(** CENTER is pressed at tick 23: when mission 0 is launched on [st0], that
    is the third poll of its first [gyro_turn]. *)
Definition w_abort_in_turn : World :=
  w_buttons (fun t => if Nat.eqb t 23 then [CENTER] else []).


(** LEFT is pressed when [main_body], started on [st0], reads the buttons
    (tick 1), and released after. *)
Definition w_left_at_0 : World :=
  w_buttons (fun t => if Nat.eqb t 1 then [LEFT] else []).


(** As [w_abort_in_turn], CENTER is pressed at the third poll of the first
    [gyro_turn] of mission 0, the drive motors running; the [robot.stop()]
    the emergency stop then calls (tick 24) fails with errno 19. *)
Definition w_abort_stop_fails : World :=
  {| pressed_at := fun t => if Nat.eqb t 23 then [CENTER] else [];
     heading_at := fun _ => 0%Q;
     fault_at := fun t => if Nat.eqb t 24 then Some (OSError 19) else None |}.

(** The Bluetooth button is pressed when [main], started on [st0], first
    reads the buttons (tick 6), and the first device call of the mission it
    starts (tick 11, the [robot.stop()] of [setup_drive]) raises
    [SystemExit]. *)
Definition w_exit_in_mission : World :=
  {| pressed_at := fun t => if Nat.eqb t 6 then [BLUETOOTH] else [];
     heading_at := fun _ => 0%Q;
     fault_at := fun t => if Nat.eqb t 11 then Some SystemExit else None |}.

(** A robot that turns: one heading read in three is 170 degrees, which is
    past every target of the missions, and the others are 0.  No button is
    pressed and no device fails. *)
Definition w_turning : World :=
  {| pressed_at := fun _ => [];
     heading_at := fun t => if Nat.eqb (t mod 3) 0 then 170%Q else 0%Q;
     fault_at := fun _ => None |}.


(** * Properties *)

(** ** The state after a call *)

Lemma tick_log (ev : event) (st : Robot) : tick (log ev st) = S (tick st).
Proof.
  unfold tick, log; simpl. rewrite length_app; simpl. lia.
Qed.

Lemma trace_effect (c : cmd) (st : Robot) : trace (effect c st) = trace st.
Proof. destruct c; reflexivity. Qed.

Lemma tick_effect (c : cmd) (st : Robot) : tick (effect c st) = tick st.
Proof. unfold tick. now rewrite trace_effect. Qed.

Lemma tick_done (c : cmd) (ev : event) (st : Robot) :
  tick (effect c (log ev st)) = S (tick st).
Proof. now rewrite tick_effect, tick_log. Qed.

Lemma trace_done (c : cmd) (ev : event) (st : Robot) :
  trace (effect c (log ev st)) = trace st ++ [ev].
Proof. now rewrite trace_effect. Qed.

Section Calls.

Variable w : World.

(** A call never loops, and logs exactly one event. *)
Lemma call_cases (c : cmd) (st : Robot) :
  call w c st = (Ret tt, effect c (log (Did c) st)) \/
  exists e, is_actuator c = true /\ fault_at w (tick st) = Some e /\
            call w c st = (Raise e, log (Failed c e) st).
Proof.
  unfold call. destruct (is_actuator c) eqn:Ha; [|now left].
  destruct (fault_at w (tick st)) as [e|]; [right; now exists e | now left].
Qed.

End Calls.

(** ** Sequencing *)

Lemma bind_Ret {A B} (m : M A) (k : A -> M B) (st st' : Robot) (a : A) :
  m st = (Ret a, st') -> bind m k st = k a st'.
Proof. intros H. unfold bind. now rewrite H. Qed.

Lemma bind_Raise {A B} (m : M A) (k : A -> M B) (st st' : Robot)
      (e : BaseException) :
  m st = (Raise e, st') -> bind m k st = (Raise e, st').
Proof. intros H. unfold bind. now rewrite H. Qed.

(** What a sequence returns, it returns after its first part returned. *)
Lemma bind_inv_Ret {A B} (m : M A) (k : A -> M B) (st st' : Robot) (b : B) :
  bind m k st = (Ret b, st') ->
  exists a st1, m st = (Ret a, st1) /\ k a st1 = (Ret b, st').
Proof.
  unfold bind. destruct (m st) as [[a|e|] st1]; intros H; try discriminate.
  now exists a, st1.
Qed.

(** Statements run in order, and a statement that raises ends the block:
    the statements after it have no part in the outcome. *)
Lemma run_steps_app_Ret (pre rest : list (M unit)) (st st1 : Robot) :
  run_steps pre st = (Ret tt, st1) ->
  run_steps (pre ++ rest) st = run_steps rest st1.
Proof.
  revert st. induction pre as [|s pre IH]; simpl; intros st H.
  - unfold ret in H. now inversion H.
  - apply bind_inv_Ret in H. destruct H as ([] & st2 & Hs & Hpre).
    rewrite (bind_Ret _ _ _ _ _ Hs). now apply IH.
Qed.

Lemma run_steps_raise (pre post : list (M unit)) (s : M unit)
      (st st1 st2 : Robot) (e : BaseException) :
  run_steps pre st = (Ret tt, st1) ->
  s st1 = (Raise e, st2) ->
  run_steps (pre ++ s :: post) st = (Raise e, st2).
Proof.
  intros Hpre Hs. rewrite (run_steps_app_Ret _ _ _ _ Hpre). simpl.
  now rewrite (bind_Raise _ _ _ _ _ Hs).
Qed.

(** ** Invariants of [gyro_turn], for any relation its calls respect *)

Create HintDb follows.

Section Follows.

Variable w : World.
Variable R : Robot -> Robot -> Prop.

Hypothesis R_refl : forall st, R st st.
Hypothesis R_trans : forall a b c, R a b -> R b c -> R a c.
Hypothesis R_call :
  forall c st, gyro_cmd c = true -> R st (snd (call w c st)).
Hypothesis R_read :
  forall ev st, is_read ev = true -> R st (log ev st).

Lemma follows_ret {A} (a : A) : follows R (ret a).
Proof. intros st. apply R_refl. Qed.

Lemma follows_raise {A} (e : BaseException) : follows R (@raise A e).
Proof. intros st. apply R_refl. Qed.

Lemma follows_bind {A B} (m : M A) (k : A -> M B) :
  follows R m -> (forall a, follows R (k a)) -> follows R (bind m k).
Proof.
  intros Hm Hk st. unfold bind. specialize (Hm st).
  destruct (m st) as [[a|e|] st1]; simpl in *; auto.
  eapply R_trans; [exact Hm | apply Hk].
Qed.

Lemma follows_call (c : cmd) : gyro_cmd c = true -> follows R (call w c).
Proof. intros H st. now apply R_call. Qed.

Lemma follows_buttons_pressed : follows R (buttons_pressed w).
Proof. intros st. simpl. now apply R_read. Qed.

Lemma follows_imu_heading : follows R (imu_heading w).
Proof. intros st. simpl. now apply R_read. Qed.

Hint Resolve follows_ret follows_raise follows_call follows_buttons_pressed
  follows_imu_heading : follows.

Ltac follows_steps :=
  repeat first
    [ apply follows_bind; [| intros ?]
    | progress (unfold wait, beep)
    | match goal with |- follows _ (if ?b then _ else _) => destruct b end
    | solve [auto with follows] ].

Lemma follows_emergency_stop_check : follows R (emergency_stop_check w).
Proof. unfold emergency_stop_check. follows_steps. Qed.

Lemma follows_gyro_turn_body (target_deg : Q) (speed turn_speed : Z) :
  follows R (gyro_turn_body w target_deg speed turn_speed).
Proof.
  unfold gyro_turn_body.
  apply follows_bind; [apply follows_emergency_stop_check | intros _].
  follows_steps.
Qed.

Lemma follows_gyro_turn_loop (n : nat) (target_deg : Q) (speed turn_speed : Z) :
  follows R (gyro_turn_loop w n target_deg speed turn_speed).
Proof.
  induction n as [|n IH]; simpl.
  - intros st. apply R_refl.
  - apply follows_bind; [apply follows_gyro_turn_body | intros []]; auto with follows.
Qed.

Lemma follows_gyro_turn (fuel : nat) (target_deg : Q) (slow_turn axis_turn : bool) :
  follows R (gyro_turn w fuel target_deg slow_turn axis_turn).
Proof.
  unfold gyro_turn.
  apply follows_bind; [auto with follows | intros _].
  apply follows_bind; [unfold wait; auto with follows | intros _].
  apply follows_bind; [apply follows_gyro_turn_loop | intros _].
  follows_steps.
Qed.

End Follows.

(** ** Two such relations: what is logged, and the stored settings *)

Lemma emits_refl (P : event -> Prop) (st : Robot) : emits P st st.
Proof. exists []. split; [now rewrite app_nil_r | constructor]. Qed.

Lemma emits_trans (P : event -> Prop) (a b c : Robot) :
  emits P a b -> emits P b c -> emits P a c.
Proof.
  intros (e1 & H1 & F1) (e2 & H2 & F2). exists (e1 ++ e2). split.
  - now rewrite H2, H1, app_assoc.
  - apply Forall_app. now split.
Qed.

Lemma emits_log (P : event -> Prop) (ev : event) (st : Robot) :
  P ev -> emits P st (log ev st).
Proof. intros H. exists [ev]. split; [reflexivity | now constructor]. Qed.

Lemma emits_call (P : event -> Prop) (w : World) (c : cmd) (st : Robot) :
  P (Did c) -> (forall e, P (Failed c e)) -> emits P st (snd (call w c st)).
Proof.
  intros Hd Hf. destruct (call_cases w c st) as [H | (e & _ & _ & H)];
    rewrite H; simpl.
  - exists [Did c]. split; [apply trace_done | now constructor].
  - now apply emits_log.
Qed.

Lemma same_settings_refl (st : Robot) : same_settings st st.
Proof. now split. Qed.

Lemma same_settings_trans (a b c : Robot) :
  same_settings a b -> same_settings b c -> same_settings a c.
Proof. intros [H1 H2] [H3 H4]. split; congruence. Qed.


Lemma gyro_turn_emits_no_robot_turn
      (w : World) (fuel : nat) (target_deg : Q) (slow_turn axis_turn : bool) :
  follows (emits not_robot_turn) (gyro_turn w fuel target_deg slow_turn axis_turn).
Proof.
  apply follows_gyro_turn.
  - apply emits_refl.
  - apply emits_trans.
  - intros c st Hc. apply emits_call; [|intros e]; now destruct c.
  - intros ev st Hev. apply emits_log. now destruct ev.
Qed.


(** ** The emergency stop *)

Section EmergencyStop.

Variable w : World.

Lemma emergency_stop_check_clear (st : Robot) :
  button_in CENTER (pressed_at w (tick st)) = false ->
  emergency_stop_check w st = (Ret tt, log (Pressed (pressed_at w (tick st))) st).
Proof.
  intros H. unfold emergency_stop_check, bind, buttons_pressed. now rewrite H.
Qed.

Lemma emergency_stop_check_Ret (st st' : Robot) :
  emergency_stop_check w st = (Ret tt, st') ->
  button_in CENTER (pressed_at w (tick st)) = false /\
  st' = log (Pressed (pressed_at w (tick st))) st.
Proof.
  destruct (button_in CENTER (pressed_at w (tick st))) eqn:Hb.
  - unfold emergency_stop_check, bind, buttons_pressed, beep. rewrite Hb.
    repeat match goal with
           | |- context [call w ?c ?s] =>
               destruct (call_cases w c s) as [-> | (? & _ & _ & ->)]
           end; discriminate.
  - rewrite (emergency_stop_check_clear _ Hb). intros H. now inversion H.
Qed.

Lemma emergency_stop_check_not_OutOfFuel (st : Robot) :
  fst (emergency_stop_check w st) <> OutOfFuel.
Proof.
  unfold emergency_stop_check, bind, buttons_pressed, beep.
  destruct (button_in CENTER (pressed_at w (tick st))); [|discriminate].
  repeat match goal with
         | |- context [call w ?c ?s] =>
             destruct (call_cases w c s) as [-> | (? & _ & _ & ->)]
         end; discriminate.
Qed.

Lemma no_fault_at (t n i : nat) :
  no_fault w t n -> (i < n)%nat -> fault_at w (i + t) = None.
Proof. intros H Hi. now apply H. Qed.

(** CENTER pressed: the drive base and the four motors are stopped, in this
    order, and then the check raises. *)
Lemma emergency_stop_check_abort (st : Robot) :
  button_in CENTER (pressed_at w (tick st)) = true ->
  no_fault w (1 + tick st) 5 ->
  exists st',
    emergency_stop_check w st = (Raise (RuntimeError "Emergency stop"), st') /\
    trace st' = trace st ++ emergency_stop_events (pressed_at w (tick st)) /\
    all_stopped st' /\ same_settings st st'.
Proof.
  intros Hb Hf.
  pose proof (no_fault_at _ _ 0 Hf ltac:(lia)) as F0.
  pose proof (no_fault_at _ _ 1 Hf ltac:(lia)) as F1.
  pose proof (no_fault_at _ _ 2 Hf ltac:(lia)) as F2.
  pose proof (no_fault_at _ _ 3 Hf ltac:(lia)) as F3.
  pose proof (no_fault_at _ _ 4 Hf ltac:(lia)) as F4.
  simpl in F0, F1, F2, F3, F4.
  unfold emergency_stop_check, bind, buttons_pressed, beep, call. rewrite Hb.
  cbn [is_actuator].
  repeat (rewrite ?tick_done, ?tick_log;
          match goal with
          | H : fault_at w ?t = None |- context [fault_at w ?t] => rewrite H
          end).
  eexists. split; [reflexivity|]. split; [|split].
  - cbn -[app]. rewrite <- !app_assoc. reflexivity.
  - intros m. now destruct m.
  - now split.
Qed.

(** CENTER pressed and a stop call raises: the stops before it were made,
    the stops after it are not, and what the check raises is what that
    call raised. *)
Lemma emergency_stop_check_stop_fails (st : Robot) (i : nat) (e : BaseException) :
  button_in CENTER (pressed_at w (tick st)) = true ->
  (i < 5)%nat ->
  no_fault w (1 + tick st) i ->
  fault_at w (i + (1 + tick st)) = Some e ->
  exists st',
    emergency_stop_check w st = (Raise e, st') /\
    trace st' = trace st ++ failed_stop_events (pressed_at w (tick st)) i e /\
    (forall m, not_stopped_by (firstn i emergency_stop_cmds) m ->
               motor_speed st' m = motor_speed st m).
Proof.
  intros Hb Hi Hok Hfail.
  assert (forall j, (j < i)%nat -> fault_at w (j + S (tick st)) = None) as Hok'
      by (intros j Hj; now apply Hok).
  unfold emergency_stop_check, bind, buttons_pressed, beep, call. rewrite Hb.
  cbn [is_actuator]. cbn [Nat.add] in Hfail.
  unfold failed_stop_events, not_stopped_by.
  destruct i as [|[|[|[|[|i]]]]]; [| | | | |lia];
    try (pose proof (Hok' 0%nat ltac:(lia)) as F0);
    try (pose proof (Hok' 1%nat ltac:(lia)) as F1);
    try (pose proof (Hok' 2%nat ltac:(lia)) as F2);
    try (pose proof (Hok' 3%nat ltac:(lia)) as F3);
    clear Hok Hok'; cbn [Nat.add] in *;
    repeat (rewrite ?tick_done, ?tick_log;
            match goal with
            | H : fault_at w ?t = _ |- context [fault_at w ?t] => rewrite H
            end);
    (eexists; split; [reflexivity|]; split;
     [ cbn -[app]; rewrite <- ?app_assoc; reflexivity
     | intros m Hm; destruct m; cbn in Hm; try discriminate; reflexivity ]).
Qed.

End EmergencyStop.

(** ** One poll of [gyro_turn] *)

Section GyroTurnBody.

Variable w : World.
Variables (target_deg : Q) (speed turn_speed : Z).

Let body := gyro_turn_body w target_deg speed turn_speed.

Lemma gyro_turn_body_continues (st : Robot) :
  poll_continues w target_deg (tick st) ->
  exists st',
    body st = (Ret false, st') /\
    tick st' = (5 + tick st)%nat /\
    trace st' = trace st ++ poll_events w target_deg speed turn_speed (tick st).
Proof.
  intros (Hb & Hh & Hf).
  pose proof (no_fault_at w _ _ 0 Hf ltac:(lia)) as F0.
  pose proof (no_fault_at w _ _ 1 Hf ltac:(lia)) as F1.
  simpl in F0, F1, Hh.
  unfold body, gyro_turn_body.
  rewrite (bind_Ret _ _ _ _ _ (emergency_stop_check_clear w st Hb)).
  unfold bind, imu_heading, wait, call, poll_events. cbn [is_actuator].
  rewrite ?tick_log, Hh.
  destruct (Qgtb target_deg 0);
    repeat (rewrite ?tick_done, ?tick_log;
            match goal with
            | H : fault_at w ?t = None |- context [fault_at w ?t] => rewrite H
            end);
    (eexists; split; [reflexivity|]; split;
     [ now rewrite !tick_done, !tick_log
     | cbn -[app]; rewrite <- !app_assoc; reflexivity ]).
Qed.

(** ... and it leaves the two drive motors running. *)
Lemma gyro_turn_body_runs (st : Robot) :
  poll_continues w target_deg (tick st) ->
  exists st',
    body st = (Ret false, st') /\
    tick st' = (5 + tick st)%nat /\
    motor_speed st' left_motor = left_run_speed target_deg speed turn_speed /\
    motor_speed st' right_motor = right_run_speed target_deg speed turn_speed.
Proof.
  intros (Hb & Hh & Hf).
  pose proof (no_fault_at w _ _ 0 Hf ltac:(lia)) as F0.
  pose proof (no_fault_at w _ _ 1 Hf ltac:(lia)) as F1.
  simpl in F0, F1, Hh.
  unfold body, gyro_turn_body, left_run_speed, right_run_speed.
  rewrite (bind_Ret _ _ _ _ _ (emergency_stop_check_clear w st Hb)).
  unfold bind, imu_heading, wait, call. cbn [is_actuator].
  rewrite ?tick_log, Hh.
  destruct (Qgtb target_deg 0);
    repeat (rewrite ?tick_done, ?tick_log;
            match goal with
            | H : fault_at w ?t = None |- context [fault_at w ?t] => rewrite H
            end);
    (eexists; split; [reflexivity|]; split;
     [ now rewrite !tick_done, !tick_log | split; reflexivity ]).
Qed.

Lemma gyro_turn_body_not_OutOfFuel (st : Robot) :
  fst (body st) <> OutOfFuel.
Proof.
  unfold body, gyro_turn_body, bind.
  pose proof (emergency_stop_check_not_OutOfFuel w st) as He.
  destruct (emergency_stop_check w st) as [[[]|e|] st1]; simpl in *;
    try discriminate; [|congruence].
  unfold imu_heading, wait.
  destruct (Qgeb _ _); [discriminate|].
  destruct (Qgtb target_deg 0);
    repeat match goal with
           | |- context [call w ?c ?s] =>
               destruct (call_cases w c s) as [-> | (? & _ & _ & ->)]
           end; discriminate.
Qed.

(** A poll that breaks read a heading that had reached the target. *)
Lemma gyro_turn_body_breaks (st st' : Robot) :
  body st = (Ret true, st') ->
  button_in CENTER (pressed_at w (tick st)) = false /\
  Qgeb (Qabs (normalize_heading (heading_at w (1 + tick st)))) (Qabs target_deg) = true /\
  st' = log (Heading (heading_at w (1 + tick st)))
            (log (Pressed (pressed_at w (tick st))) st).
Proof.
  unfold body, gyro_turn_body. intros H.
  apply bind_inv_Ret in H. destruct H as ([] & st1 & He & H).
  apply emergency_stop_check_Ret in He. destruct He as [Hb ->].
  unfold bind, imu_heading, wait in H. rewrite tick_log in H. simpl.
  destruct (Qgeb _ _) eqn:Hh.
  - unfold ret in H. inversion H. auto.
  - destruct (Qgtb target_deg 0); unfold ret in H; cbv beta in H;
      repeat match type of H with
             | context [call w ?c ?s] =>
                 destruct (call_cases w c s) as [Hc | (? & _ & _ & Hc)];
                 rewrite Hc in H; clear Hc
             end; discriminate.
Qed.

(** A poll that goes round again saw no abort and a heading short of the
    target, and logged five events. *)
Lemma gyro_turn_body_went_on (st st' : Robot) :
  body st = (Ret false, st') ->
  button_in CENTER (pressed_at w (tick st)) = false /\
  Qgeb (Qabs (normalize_heading (heading_at w (1 + tick st)))) (Qabs target_deg) = false /\
  tick st' = (5 + tick st)%nat.
Proof.
  unfold body, gyro_turn_body. intros H.
  apply bind_inv_Ret in H. destruct H as ([] & st1 & He & H).
  apply emergency_stop_check_Ret in He. destruct He as [Hb ->].
  unfold bind, imu_heading, wait in H. rewrite tick_log in H. simpl.
  destruct (Qgeb _ _) eqn:Hh; [discriminate|].
  split; [assumption|]. split; [reflexivity|].
  destruct (Qgtb target_deg 0); unfold ret in H; cbv beta in H;
    repeat match type of H with
           | context [call w ?c ?s] =>
               destruct (call_cases w c s) as [Hc | (? & _ & _ & Hc)];
               rewrite Hc in H; clear Hc
           end; try discriminate;
    inversion H; unfold tick; simpl; rewrite !length_app; simpl; lia.
Qed.

End GyroTurnBody.

(** ** The loop of [gyro_turn] *)

Section GyroTurnLoop.

Variable w : World.
Variables (target_deg : Q) (speed turn_speed : Z).

Let loop (n : nat) := gyro_turn_loop w n target_deg speed turn_speed.

(** The loop is left by [break] only: the last thing logged is a heading
    that had reached the target. *)
Lemma gyro_turn_loop_Ret (n : nat) (st st' : Robot) :
  loop n st = (Ret tt, st') ->
  exists tr h,
    trace st' = tr ++ [Heading h] /\
    Qgeb (Qabs (normalize_heading h)) (Qabs target_deg) = true.
Proof.
  revert st. induction n as [|n IH]; intros st H; [discriminate|].
  unfold loop in H. simpl in H.
  apply bind_inv_Ret in H. destruct H as ([|] & st1 & Hb & H).
  - apply gyro_turn_body_breaks in Hb. destruct Hb as (_ & Hh & ->).
    unfold ret in H. inversion H; subst.
    now exists (trace st ++ [Pressed (pressed_at w (tick st))]),
               (heading_at w (1 + tick st)).
  - now apply (IH st1).
Qed.

(** [k] polls that go round again are [k] passes through the loop. *)
Lemma gyro_turn_loop_continues (k n : nat) (st : Robot) :
  (forall j, (j < k)%nat -> poll_continues w target_deg (5 * j + tick st)) ->
  exists st_k,
    loop (k + n) st = loop n st_k /\
    tick st_k = (5 * k + tick st)%nat /\
    trace st_k =
      trace st ++ polls_events w target_deg speed turn_speed (tick st) k.
Proof.
  revert st. induction k as [|k IH]; intros st H.
  - exists st. simpl. now rewrite app_nil_r.
  - destruct (gyro_turn_body_continues w target_deg speed turn_speed st)
      as (st1 & Hb & Ht & Htr).
    { specialize (H 0%nat ltac:(lia)). now rewrite Nat.mul_0_r in H. }
    destruct (IH st1) as (st_k & Hl & Htk & Htrk).
    { intros j Hj. specialize (H (S j) ltac:(lia)).
      replace (5 * j + tick st1)%nat with (5 * S j + tick st)%nat by lia.
      exact H. }
    exists st_k. split; [|split].
    + unfold loop. simpl. rewrite (bind_Ret _ _ _ _ _ Hb). exact Hl.
    + lia.
    + rewrite Htrk, Htr, Ht, <- app_assoc. reflexivity.
Qed.

(** ... and after the first of them the two drive motors are running. *)
Lemma gyro_turn_loop_runs (k n : nat) (st : Robot) :
  (forall j, (j < k)%nat -> poll_continues w target_deg (5 * j + tick st)) ->
  exists st_k,
    loop (k + n) st = loop n st_k /\
    tick st_k = (5 * k + tick st)%nat /\
    (k = 0%nat -> st_k = st) /\
    ((0 < k)%nat ->
     motor_speed st_k left_motor = left_run_speed target_deg speed turn_speed /\
     motor_speed st_k right_motor = right_run_speed target_deg speed turn_speed).
Proof.
  revert st. induction k as [|k IH]; intros st H.
  - exists st. repeat split; lia.
  - destruct (gyro_turn_body_runs w target_deg speed turn_speed st)
      as (st1 & Hb & Ht & Hl1 & Hr1).
    { specialize (H 0%nat ltac:(lia)). now rewrite Nat.mul_0_r in H. }
    destruct (IH st1) as (st_k & Hl & Htk & Hz & Hs).
    { intros j Hj. specialize (H (S j) ltac:(lia)).
      replace (5 * j + tick st1)%nat with (5 * S j + tick st)%nat by lia.
      exact H. }
    exists st_k. split; [|split; [|split]].
    + unfold loop. simpl. rewrite (bind_Ret _ _ _ _ _ Hb). exact Hl.
    + lia.
    + intros E. discriminate.
    + intros _. destruct k as [|k].
      * rewrite (Hz eq_refl). now split.
      * apply Hs. lia.
Qed.

(** The loop ends at the first poll that sees CENTER or a heading that has
    reached the target, if not before. *)
Lemma gyro_turn_loop_ends (k n : nat) (st : Robot) :
  (k < n)%nat ->
  poll_ends w target_deg (5 * k + tick st) ->
  fst (loop n st) <> OutOfFuel.
Proof.
  revert n st. induction k as [|k IH]; intros n st Hn He;
    (destruct n as [|n]; [lia|]); unfold loop;
    cbn [gyro_turn_loop]; unfold bind;
    pose proof (gyro_turn_body_not_OutOfFuel w target_deg speed turn_speed st) as Hb;
    destruct (gyro_turn_body w target_deg speed turn_speed st)
      as [[[|]|e|] st1] eqn:E; cbn [fst ret] in *;
    try discriminate; try congruence.
  - apply gyro_turn_body_went_on in E. destruct E as (Hc & Hh & _).
    change (5 * 0 + tick st)%nat with (tick st) in He.
    destruct He as [He | He]; congruence.
  - apply gyro_turn_body_went_on in E. destruct E as (_ & _ & Ht).
    apply (IH n st1); [lia|].
    replace (5 * k + tick st1)%nat with (5 * S k + tick st)%nat by lia.
    exact He.
Qed.

(** With no poll that ends it, the loop goes on for ever. *)
Lemma gyro_turn_loop_diverges (n : nat) (st : Robot) :
  (forall j, poll_continues w target_deg (5 * j + tick st)) ->
  fst (loop n st) = OutOfFuel.
Proof.
  intros H.
  destruct (gyro_turn_loop_continues n 0 st) as (st_n & Hl & _); [auto|].
  rewrite Nat.add_0_r in Hl. now rewrite Hl.
Qed.

End GyroTurnLoop.

(** ** [gyro_turn] as a whole *)

Section GyroTurn.

Variable w : World.
Variable fuel : nat.
Variables (target_deg : Q) (slow_turn axis_turn : bool).

Let speed : Z := if slow_turn then 100 else 400.
Let turn_speed : Z := if axis_turn then 1 else 3.

Lemma gyro_turn_eq (st : Robot) :
  gyro_turn w fuel target_deg slow_turn axis_turn st =
  (gyro_turn_loop w fuel target_deg speed turn_speed ;;
   call w (motor_stop left_motor) ;;
   call w (motor_stop right_motor) ;;
   wait w 100) (gyro_turn_head st).
Proof. reflexivity. Qed.

Lemma tick_gyro_turn_head (st : Robot) :
  tick (gyro_turn_head st) = (2 + tick st)%nat.
Proof. unfold gyro_turn_head. now rewrite !tick_log. Qed.

Lemma trace_gyro_turn_head (st : Robot) :
  trace (gyro_turn_head st) =
  trace st ++ [Did (imu_reset_heading 0); Did (wait_ms 150)].
Proof. unfold gyro_turn_head. simpl. now rewrite <- app_assoc. Qed.

(** After the loop the two drive motors are stopped; no loop is left. *)
Lemma stop_after_loop_not_OutOfFuel (st : Robot) :
  fst ((call w (motor_stop left_motor) ;;
        call w (motor_stop right_motor) ;;
        wait w 100) st) <> OutOfFuel.
Proof.
  unfold bind, wait.
  repeat match goal with
         | |- context [call w ?c ?s] =>
             destruct (call_cases w c s) as [-> | (? & _ & _ & ->)]
         end; discriminate.
Qed.

Lemma stop_after_loop_Ret (st st' : Robot) :
  (call w (motor_stop left_motor) ;;
   call w (motor_stop right_motor) ;;
   wait w 100) st = (Ret tt, st') ->
  trace st' = trace st ++ [Did (motor_stop left_motor);
                           Did (motor_stop right_motor);
                           Did (wait_ms 100)] /\
  motor_speed st' left_motor = 0 /\ motor_speed st' right_motor = 0.
Proof.
  unfold bind, wait. intros H.
  repeat match type of H with
         | context [call w ?c ?s] =>
             destruct (call_cases w c s) as [Hc | (? & _ & _ & Hc)];
             rewrite Hc in H; clear Hc
         end; try discriminate.
  inversion H. cbn -[app]. rewrite <- !app_assoc. repeat split.
Qed.

Lemma gyro_turn_ends (k : nat) (st : Robot) :
  (k < fuel)%nat ->
  poll_ends w target_deg (5 * k + (2 + tick st)) ->
  fst (gyro_turn w fuel target_deg slow_turn axis_turn st) <> OutOfFuel.
Proof.
  intros Hk He. rewrite gyro_turn_eq. unfold bind at 1.
  rewrite <- tick_gyro_turn_head in He.
  pose proof (gyro_turn_loop_ends w target_deg speed turn_speed k fuel _ Hk He) as Hl.
  destruct (gyro_turn_loop w fuel target_deg speed turn_speed (gyro_turn_head st))
    as [[[]|e|] st1]; cbn [fst] in *; try discriminate; [|congruence].
  apply stop_after_loop_not_OutOfFuel.
Qed.

Lemma gyro_turn_diverges (st : Robot) :
  (forall j, poll_continues w target_deg (5 * j + (2 + tick st))) ->
  fst (gyro_turn w fuel target_deg slow_turn axis_turn st) = OutOfFuel.
Proof.
  intros H. rewrite gyro_turn_eq. unfold bind at 1.
  pose proof (gyro_turn_loop_diverges w target_deg speed turn_speed fuel
                (gyro_turn_head st)) as Hl.
  rewrite tick_gyro_turn_head in Hl. specialize (Hl H).
  destruct (gyro_turn_loop w fuel target_deg speed turn_speed (gyro_turn_head st))
    as [[[]|e|] st1]; cbn [fst] in *; try discriminate. reflexivity.
Qed.

Lemma gyro_turn_Ret (st st' : Robot) :
  gyro_turn w fuel target_deg slow_turn axis_turn st = (Ret tt, st') ->
  exists tr h,
    trace st' = tr ++ [Heading h;
                       Did (motor_stop left_motor);
                       Did (motor_stop right_motor);
                       Did (wait_ms 100)] /\
    (Qabs target_deg <= Qabs (normalize_heading h))%Q /\
    motor_speed st' left_motor = 0 /\ motor_speed st' right_motor = 0.
Proof.
  rewrite gyro_turn_eq. intros H.
  apply bind_inv_Ret in H. destruct H as ([] & st1 & Hl & H).
  apply gyro_turn_loop_Ret in Hl. destruct Hl as (tr & h & Htr & Hh).
  apply stop_after_loop_Ret in H. destruct H as (Ht & Hleft & Hright).
  exists tr, h. repeat split; auto.
  - now rewrite Ht, Htr, <- app_assoc.
  - unfold Qgeb in Hh. now apply Qle_bool_iff.
Qed.

(** The trace only grows. *)
Lemma gyro_turn_rest_grows (n : nat) (st : Robot) :
  emits (fun _ => True)
    st (snd ((gyro_turn_loop w n target_deg speed turn_speed ;;
              call w (motor_stop left_motor) ;;
              call w (motor_stop right_motor) ;;
              wait w 100) st)).
Proof.
  assert (Hcall : forall c, follows (emits (fun _ => True)) (call w c)).
  { intros c st1. now apply emits_call. }
  revert st. apply follows_bind.
  - apply emits_trans.
  - apply follows_gyro_turn_loop.
    + apply emits_refl.
    + apply emits_trans.
    + intros c st _. apply Hcall.
    + intros ev st _. now apply emits_log.
  - intros _. repeat (apply follows_bind;
      [apply emits_trans | apply Hcall | intros _]).
    apply Hcall.
Qed.

(** [k] polls that go round again: the trace starts with what they log. *)
Lemma gyro_turn_polls (k : nat) (st : Robot) :
  (k <= fuel)%nat ->
  (forall j, (j < k)%nat -> poll_continues w target_deg (5 * j + (2 + tick st))) ->
  exists rest,
    trace (snd (gyro_turn w fuel target_deg slow_turn axis_turn st)) =
    trace st ++ [Did (imu_reset_heading 0); Did (wait_ms 150)] ++
    polls_events w target_deg speed turn_speed (2 + tick st) k ++ rest.
Proof.
  intros Hk Hc. rewrite gyro_turn_eq.
  rewrite <- tick_gyro_turn_head in Hc.
  destruct (gyro_turn_loop_continues w target_deg speed turn_speed k (fuel - k)
              (gyro_turn_head st) Hc) as (st_k & Hl & _ & Htr).
  replace (k + (fuel - k))%nat with fuel in Hl by lia.
  destruct (gyro_turn_rest_grows (fuel - k) st_k) as (rest & Hrest & _).
  exists rest. unfold bind at 1. unfold bind at 1 in Hrest. rewrite Hl.
  rewrite Hrest, Htr, trace_gyro_turn_head, tick_gyro_turn_head, <- !app_assoc.
  reflexivity.
Qed.

(** The state in which the poll number [k] begins, every poll before it
    having gone round again: what [emergency_stop_check] raises there is
    what the turn raises. *)
Lemma gyro_turn_poll_raises (k : nat) (st : Robot) :
  (k < fuel)%nat ->
  (forall j, (j < k)%nat -> poll_continues w target_deg (5 * j + (2 + tick st))) ->
  exists st_k,
    tick st_k = (5 * k + (2 + tick st))%nat /\
    ((0 < k)%nat ->
     motor_speed st_k left_motor = left_run_speed target_deg speed turn_speed /\
     motor_speed st_k right_motor = right_run_speed target_deg speed turn_speed) /\
    forall e st',
      emergency_stop_check w st_k = (Raise e, st') ->
      gyro_turn w fuel target_deg slow_turn axis_turn st = (Raise e, st').
Proof.
  intros Hk Hc. rewrite <- tick_gyro_turn_head in Hc.
  destruct (gyro_turn_loop_runs w target_deg speed turn_speed k (fuel - k)
              (gyro_turn_head st) Hc) as (st_k & Hl & Ht & _ & Hs).
  replace (k + (fuel - k))%nat with fuel in Hl by lia.
  exists st_k. split; [|split].
  - rewrite <- tick_gyro_turn_head. exact Ht.
  - exact Hs.
  - intros e st' He. rewrite gyro_turn_eq. unfold bind at 1. rewrite Hl.
    destruct (fuel - k)%nat as [|n] eqn:E; [lia|].
    cbn [gyro_turn_loop]. unfold bind at 1. unfold gyro_turn_body.
    unfold bind at 1. now rewrite He.
Qed.

(** CENTER seen by the poll number [k], every poll before it having gone
    round again: the turn ends there with the emergency stop, and logs
    nothing after it. *)
Lemma gyro_turn_abort (k : nat) (st : Robot) :
  (k < fuel)%nat ->
  (forall j, (j < k)%nat -> poll_continues w target_deg (5 * j + (2 + tick st))) ->
  button_in CENTER (pressed_at w (5 * k + (2 + tick st))) = true ->
  no_fault w (1 + (5 * k + (2 + tick st))) 5 ->
  exists st' before,
    gyro_turn w fuel target_deg slow_turn axis_turn st =
      (Raise (RuntimeError "Emergency stop"), st') /\
    List.length before = (5 * k + (2 + tick st))%nat /\
    trace st' =
      before ++ emergency_stop_events (pressed_at w (5 * k + (2 + tick st))) /\
    all_stopped st'.
Proof.
  intros Hk Hc Hb Hf. rewrite gyro_turn_eq.
  rewrite <- tick_gyro_turn_head in Hc, Hb, Hf.
  destruct (gyro_turn_loop_continues w target_deg speed turn_speed k (fuel - k)
              (gyro_turn_head st) Hc) as (st_k & Hl & Ht & _).
  replace (k + (fuel - k))%nat with fuel in Hl by lia.
  rewrite <- Ht in Hb, Hf.
  destruct (emergency_stop_check_abort w st_k Hb Hf) as (st' & He & Htr & Hs & _).
  exists st', (trace st_k). split; [|split; [|split]].
  - unfold bind at 1. rewrite Hl.
    destruct (fuel - k)%nat as [|n] eqn:E; [lia|].
    cbn [gyro_turn_loop]. unfold bind at 1. unfold gyro_turn_body.
    unfold bind at 1. now rewrite He.
  - rewrite <- tick_gyro_turn_head. exact Ht.
  - now rewrite <- tick_gyro_turn_head, <- Ht.
  - exact Hs.
Qed.

End GyroTurn.

(** ** The launcher *)

Section Launcher.

Variable w : World.
Variable fuel : nat.

Lemma announce_start_Ret (name : string) (st : Robot) :
  announce_start w name st = (Ret tt, snd (announce_start w name st)).
Proof. reflexivity. Qed.

(** The selection display, for a selection that is in the table. *)
Lemma restore_selection (selected : Z) (st : Robot) :
  0 <= selected < 6 ->
  exists st',
    (set_mission_light w selected ;; show_selection w fuel selected) st =
      (Ret tt, st') /\
    trace st' = trace st ++ selection_events w fuel selected /\
    (forall m, motor_speed st' m = motor_speed st m).
Proof.
  intros H.
  assert (selected = 0 \/ selected = 1 \/ selected = 2 \/ selected = 3 \/
          selected = 4 \/ selected = 5) as Hs by lia.
  destruct Hs as [-> | [-> | [-> | [-> | [-> | ->]]]]];
    (eexists; split; [reflexivity|]; split;
     [cbn -[app]; rewrite <- !app_assoc; reflexivity | reflexivity]).
Qed.

(** A mission that raises: the launcher reports the error and shows the
    selection again. *)
Lemma launch_Raise (name : string) (fn : M unit) (selected : Z)
      (st st2 : Robot) (e : exn) :
  0 <= selected < 6 ->
  fn (snd (announce_start w name st)) = (Raise e, st2) ->
  exists st',
    launch w fuel (name, fn) selected st = (Ret tt, st') /\
    trace st' =
      trace st2 ++
      [ Did (print_line (String.append "Error: " (exn_str e)));
        Did (speaker_beep 200 500) ] ++
      selection_events w fuel selected /\
    (forall m, motor_speed st' m = motor_speed st2 m).
Proof.
  intros Hsel Hfn.
  destruct (restore_selection selected
              (effect (speaker_beep 200 500)
                 (log (Did (speaker_beep 200 500))
                    (effect (print_line (String.append "Error: " (exn_str e)))
                       (log (Did (print_line (String.append "Error: " (exn_str e))))
                          st2)))) Hsel)
    as (st' & Hr & Htr & Hm).
  exists st'. split; [|split].
  - unfold launch. rewrite (bind_Ret _ _ _ _ _ (announce_start_Ret name st)).
    unfold bind at 1, try_except, bind at 1. rewrite Hfn.
    unfold bind at 1. cbn [print beep call is_actuator]. exact Hr.
  - rewrite Htr. cbn -[app selection_events]. now rewrite <- !app_assoc.
  - intros m. now rewrite Hm.
Qed.

(** A mission that raises what is not an instance of [Exception]: the
    launcher does not catch it.  Nothing is printed, no tone is sounded and
    the selection is not shown again. *)
Lemma launch_passes (name : string) (fn : M unit) (selected : Z)
      (st st2 : Robot) (e : BaseException) :
  (forall e', e <> Exception e') ->
  fn (snd (announce_start w name st)) = (Raise e, st2) ->
  launch w fuel (name, fn) selected st = (Raise e, st2).
Proof.
  intros He Hfn. unfold launch.
  rewrite (bind_Ret _ _ _ _ _ (announce_start_Ret name st)).
  unfold bind at 1, try_except, bind at 1. rewrite Hfn.
  destruct e as [| |e']; [reflexivity | reflexivity |].
  exfalso. now apply (He e').
Qed.

(** What the launcher does with what the mission raised. *)
Lemma launch_outcome (name : string) (fn : M unit) (selected : Z)
      (st st2 : Robot) (e : BaseException) :
  0 <= selected < 6 ->
  fn (snd (announce_start w name st)) = (Raise e, st2) ->
  match e with
  | Exception e' =>
      exists st',
        launch w fuel (name, fn) selected st = (Ret tt, st') /\
        trace st' =
          trace st2 ++
          [ Did (print_line (String.append "Error: " (exn_str e')));
            Did (speaker_beep 200 500) ] ++
          selection_events w fuel selected /\
        (forall m, motor_speed st' m = motor_speed st2 m)
  | _ => launch w fuel (name, fn) selected st = (Raise e, st2)
  end.
Proof.
  intros Hsel Hfn. destruct e as [| |e'].
  - apply launch_passes; [discriminate | exact Hfn].
  - apply launch_passes; [discriminate | exact Hfn].
  - now apply launch_Raise.
Qed.

(** CENTER seen by the check at the head of [main]'s loop: everything is
    stopped and the exception leaves the loop body. *)
Lemma main_body_abort (selected : Z) (st : Robot) :
  button_in CENTER (pressed_at w (tick st)) = true ->
  no_fault w (1 + tick st) 5 ->
  exists st',
    main_body w fuel selected st = (Raise (RuntimeError "Emergency stop"), st') /\
    trace st' = trace st ++ emergency_stop_events (pressed_at w (tick st)) /\
    all_stopped st'.
Proof.
  intros Hb Hf.
  destruct (emergency_stop_check_abort w st Hb Hf) as (st' & He & Htr & Hs & _).
  exists st'. repeat split; auto.
  unfold main_body. now rewrite (bind_Raise _ _ _ _ _ He).
Qed.

End Launcher.

(** ** Sequencing, for any relation *)



(** * The claims *)

(** ** Motion primitives *)

(** [drive_cm] makes its three device calls in order and stops at the first
    that raises. *)
Lemma drive_cm_cases (w : World) (d v a : number) (st : Robot) :
  exists r st' evs,
    drive_cm w d v a st = (r, st') /\
    trace st' = trace st ++ evs /\
    match fault_at w (tick st), fault_at w (1 + tick st), fault_at w (2 + tick st) with
    | Some e, _, _ =>
        r = Raise e /\
        evs = [Failed (robot_settings (times_10 v) (times_10 a)) e] /\
        same_settings st st'
    | None, Some e, _ =>
        r = Raise e /\
        evs = [ Did (robot_settings (times_10 v) (times_10 a));
                Failed (robot_straight (times_10 d)) e ] /\
        straight_speed st' = times_10 v /\
        straight_acceleration st' = times_10 a
    | None, None, Some e =>
        r = Raise e /\
        evs = [ Did (robot_settings (times_10 v) (times_10 a));
                Did (robot_straight (times_10 d));
                Failed robot_stop e ] /\
        straight_speed st' = times_10 v /\
        straight_acceleration st' = times_10 a
    | None, None, None =>
        r = Ret tt /\
        evs = [ Did (robot_settings (times_10 v) (times_10 a));
                Did (robot_straight (times_10 d));
                Did robot_stop ] /\
        straight_speed st' = times_10 v /\
        straight_acceleration st' = times_10 a
    end.
Proof.
  unfold drive_cm, bind, call. cbn [is_actuator]. cbn [Nat.add].
  destruct (fault_at w (tick st)) as [e0|].
  { do 3 eexists. split; [reflexivity|]. split; [reflexivity|].
    repeat split. }
  rewrite tick_done.
  destruct (fault_at w (S (tick st))) as [e1|].
  { do 3 eexists. split; [reflexivity|]. split; [|repeat split].
    cbn -[app]. now rewrite <- app_assoc. }
  rewrite !tick_done.
  destruct (fault_at w (S (S (tick st)))) as [e2|];
    (do 3 eexists; split; [reflexivity|]; split; [|repeat split];
     cbn -[app]; now rewrite <- !app_assoc).
Qed.



(** C9, as the code has it.  [drive_cm(distance_cm, velocity_cm_s,
    acceleration_cm_s2)] calls [robot.settings] with [velocity_cm_s * 10]
    and [acceleration_cm_s2 * 10], then [robot.straight] with
    [distance_cm * 10], then [robot.stop], and the first of these calls
    that raises ends it: what [drive_cm] raises is what that call raised,
    and nothing is logged after it, so nothing is tried again.  It returns
    when all three returned.  [robot.straight] is called once when
    [robot.settings] returned, and not at all when it raised. *)
Theorem drive_cm_straight_once_after_settings
        (w : World) (distance_cm velocity_cm_s acceleration_cm_s2 : number)
        (st : Robot) :
  exists r st' evs,
    drive_cm w distance_cm velocity_cm_s acceleration_cm_s2 st = (r, st') /\
    trace st' = trace st ++ evs /\
    match fault_at w (tick st), fault_at w (1 + tick st), fault_at w (2 + tick st) with
    | Some e, _, _ =>
        r = Raise e /\
        evs = [ Failed (robot_settings (times_10 velocity_cm_s)
                                       (times_10 acceleration_cm_s2)) e ]
    | None, Some e, _ =>
        r = Raise e /\
        evs = [ Did (robot_settings (times_10 velocity_cm_s)
                                    (times_10 acceleration_cm_s2));
                Failed (robot_straight (times_10 distance_cm)) e ]
    | None, None, Some e =>
        r = Raise e /\
        evs = [ Did (robot_settings (times_10 velocity_cm_s)
                                    (times_10 acceleration_cm_s2));
                Did (robot_straight (times_10 distance_cm));
                Failed robot_stop e ]
    | None, None, None =>
        r = Ret tt /\
        evs = [ Did (robot_settings (times_10 velocity_cm_s)
                                    (times_10 acceleration_cm_s2));
                Did (robot_straight (times_10 distance_cm));
                Did robot_stop ]
    end /\
    List.length (filter is_straight evs) =
      match fault_at w (tick st) with
      | Some _ => 0%nat
      | None => 1%nat
      end.
Proof.
  destruct (drive_cm_cases w distance_cm velocity_cm_s acceleration_cm_s2 st)
    as (r & st' & evs & Hr & Htr & H).
  exists r, st', evs. split; [exact Hr|]. split; [exact Htr|].
  destruct (fault_at w (tick st)) as [e0|].
  { destruct H as (-> & -> & _). now repeat split. }
  destruct (fault_at w (1 + tick st)) as [e1|].
  { destruct H as (-> & -> & _). now repeat split. }
  destruct (fault_at w (2 + tick st)) as [e2|];
    destruct H as (-> & -> & _); now repeat split.
Qed.

(** The [drive_cm(-15.5, 30, 50)] of mission 2, no device failing: the
    drive base is given 300 and 500, and [robot.straight(-155.0)] is called
    once. *)
Lemma drive_cm_straight_once_after_settings_witness :
  exists r st' evs,
    drive_cm w_stuck (Float (-15.5)) 30 50 st0 = (r, st') /\
    trace st' = trace st0 ++ evs /\
    (r = Ret tt /\
     evs = [ Did (robot_settings 300 500);
             Did (robot_straight (Float (-155)));
             Did robot_stop ]) /\
    List.length (filter is_straight evs) = 1%nat.
Proof.
  exact (drive_cm_straight_once_after_settings w_stuck (Float (-15.5)) 30 50 st0).
Defined.

(** C9 fails as stated.  When [robot.settings] raises, [drive_cm] raises
    what it raised and [robot.straight] is not called at all. *)
Lemma drive_cm_no_straight_call_when_settings_fail :
  fst (drive_cm (w_fault_at 0 (OSError 19)) 41 30 5 st0) = Raise (OSError 19) /\
  trace (snd (drive_cm (w_fault_at 0 (OSError 19)) 41 30 5 st0)) =
    [Failed (robot_settings 300 50) (OSError 19)] /\
  filter is_straight
    (trace (snd (drive_cm (w_fault_at 0 (OSError 19)) 41 30 5 st0))) = [].
Proof. repeat split. Qed.

(** The product is Python's: [0.07 * 10] is [0.7000000000000001], the
    binary64 next above [0.7], and [-15.5 * 10] is [-155.0]. *)
Lemma times_10_is_the_float_product :
  times_10 (Float 0x1.1eb851eb851ecp-4) = Float 0x1.6666666666667p-1 /\
  times_10 (Float 0x1.1eb851eb851ecp-4) <> Float 0x1.6666666666666p-1 /\
  times_10 (Float (-15.5)) = Float (-155) /\
  times_10 (Int 30) = Int 300.
Proof.
  split; [reflexivity|]. split; [|split; reflexivity].
  intros H. apply (f_equal (fun x => match x with
                                     | Float y => PrimFloat.eqb y 0x1.6666666666666p-1
                                     | Int _ => false
                                     end)) in H.
  vm_compute in H. discriminate.
Qed.



(** ** Selection *)

Lemma select_previous_next (w : World) (fuel : nat) (i : Z) :
  0 <= i < 6 -> select_previous w fuel (select_next w fuel i) = i.
Proof.
  intros H. unfold select_previous, select_next. cbn [MISSIONS List.length].
  assert (i = 0 \/ i = 1 \/ i = 2 \/ i = 3 \/ i = 4 \/ i = 5) as Hs by lia.
  destruct Hs as [-> | [-> | [-> | [-> | [-> | ->]]]]]; reflexivity.
Qed.

Lemma select_next_range (w : World) (fuel : nat) (i : Z) :
  0 <= select_next w fuel i < 6.
Proof.
  unfold select_next. cbn [MISSIONS List.length].
  apply Z.mod_pos_bound. reflexivity.
Qed.

Lemma iter_select_next_shift (w : World) (fuel : nat) (n : nat) (i : Z) :
  Nat.iter (S n) (select_next w fuel) i =
  Nat.iter n (select_next w fuel) (select_next w fuel i).
Proof.
  induction n as [|n IH]; [reflexivity|].
  change (Nat.iter (S (S n)) (select_next w fuel) i)
    with (select_next w fuel (Nat.iter (S n) (select_next w fuel) i)).
  now rewrite IH.
Qed.

Lemma show_selection_Ret (w : World) (fuel : nat) (i : Z) (st : Robot) :
  0 <= i < 6 ->
  exists st',
    show_selection w fuel i st = (Ret tt, st') /\ tick st' = (2 + tick st)%nat.
Proof.
  intros H.
  assert (i = 0 \/ i = 1 \/ i = 2 \/ i = 3 \/ i = 4 \/ i = 5) as Hs by lia.
  destruct Hs as [-> | [-> | [-> | [-> | [-> | ->]]]]];
    (eexists; split; [reflexivity|]; unfold tick; cbn -[app];
     rewrite !length_app; simpl; lia).
Qed.

(** One press of RIGHT or of LEFT, released by the time the loop polls for
    the release: the loop body returns the next or the previous index. *)
Lemma main_body_select (w : World) (fuel : nat) (b : Button) (selected : Z)
      (st : Robot) :
  b = RIGHT \/ b = LEFT ->
  0 <= selected < 6 ->
  (0 < fuel)%nat ->
  button_in CENTER (pressed_at w (tick st)) = false ->
  pressed_at w (1 + tick st) = [b] ->
  button_in b (pressed_at w (4 + tick st)) = false ->
  fst (main_body w fuel selected st) =
  Ret (match b with
       | RIGHT => select_next w fuel selected
       | _ => select_previous w fuel selected
       end).
Proof.
  intros Hb Hsel Hfuel Hc Hp Hrel.
  unfold main_body.
  rewrite (bind_Ret _ _ _ _ _ (emergency_stop_check_clear w st Hc)).
  unfold bind at 1, buttons_pressed at 1. rewrite tick_log.
  change (S (tick st)) with (1 + tick st)%nat. rewrite Hp.
  remember (log (Pressed [b]) (log (Pressed (pressed_at w (tick st))) st)) as st_p.
  assert (tick st_p = (2 + tick st)%nat) as Ht
      by (subst st_p; now rewrite !tick_log).
  destruct fuel as [|n]; [lia|].
  assert (0 <= select_previous w (S n) selected < 6) as Hr.
  { unfold select_previous. cbn [MISSIONS List.length].
    apply Z.mod_pos_bound. reflexivity. }
  destruct Hb as [-> | ->]; cbn [button_in existsb Button_eqb orb].
  - destruct (show_selection_Ret w (S n) (select_next w (S n) selected)
                st_p (select_next_range _ _ _)) as (st1 & Hs & Ht1).
    unfold bind. rewrite Hs. cbn [wait_released]. unfold bind, buttons_pressed.
    rewrite Ht1, Ht. change (2 + (2 + tick st))%nat with (4 + tick st)%nat.
    rewrite Hrel. reflexivity.
  - destruct (show_selection_Ret w (S n) (select_previous w (S n) selected)
                st_p Hr) as (st1 & Hs & Ht1).
    unfold bind. cbn [ret]. rewrite Hs. cbn [wait_released].
    unfold bind, buttons_pressed.
    rewrite Ht1, Ht. change (2 + (2 + tick st))%nat with (4 + tick st)%nat.
    rewrite Hrel. reflexivity.
Qed.

(** C8.  There are six missions.  A pass of [main]'s loop that reads
    RIGHT (or LEFT) alone, released when it polls for the release, goes on
    with [(selected + 1) % 6] (or [(selected - 1) % 6]).  From index 0 LEFT
    selects 5; from index 5 RIGHT selects 0; and from any index [i] in
    [0, 6), [n] times RIGHT followed by [n] times LEFT selects [i] again. *)
Theorem selection_wraps_and_undoes (w : World) (fuel : nat) :
  Z.of_nat (List.length (MISSIONS w fuel)) = 6 /\
  (forall (b : Button) (selected : Z) (st : Robot),
      b = RIGHT \/ b = LEFT ->
      0 <= selected < 6 ->
      (0 < fuel)%nat ->
      button_in CENTER (pressed_at w (tick st)) = false ->
      pressed_at w (1 + tick st) = [b] ->
      button_in b (pressed_at w (4 + tick st)) = false ->
      fst (main_body w fuel selected st) =
      Ret (match b with
           | RIGHT => select_next w fuel selected
           | _ => select_previous w fuel selected
           end)) /\
  select_previous w fuel 0 = 5 /\
  select_next w fuel 5 = 0 /\
  forall (n : nat) (i : Z),
    0 <= i < 6 ->
    Nat.iter n (select_previous w fuel) (Nat.iter n (select_next w fuel) i) = i.
Proof.
  split; [reflexivity|]. split; [apply main_body_select|].
  split; [reflexivity|]. split; [reflexivity|].
  induction n as [|n IH]; intros i Hi; [reflexivity|].
  rewrite iter_select_next_shift.
  change (Nat.iter (S n) (select_previous w fuel) ?x)
    with (select_previous w fuel (Nat.iter n (select_previous w fuel) x)).
  rewrite IH by apply select_next_range.
  now apply select_previous_next.
Qed.

Lemma selection_wraps_and_undoes_witness :
  fst (main_body w_left_at_0 1 0 st0) = Ret 5 /\
  Nat.iter 7 (select_previous w_stuck 1) (Nat.iter 7 (select_next w_stuck 1) 4) = 4.
Proof.
  split.
  - exact (proj1 (proj2 (selection_wraps_and_undoes w_left_at_0 1)) LEFT 0 st0
             (or_intror eq_refl) ltac:(lia) ltac:(lia) eq_refl eq_refl eq_refl).
  - exact (proj2 (proj2 (proj2 (proj2 (selection_wraps_and_undoes w_stuck 1))))
             7%nat 4 ltac:(lia)).
Defined.

(** ** The turn *)

(** C7.  The normalization of [gyro_turn] only subtracts: a reading of
    -200 is compared as -200, which is not in (-180, 180], and a reading of
    600 is compared as 240.  (Readings in (-180, 540] do end in
    (-180, 180].) *)
Theorem normalize_heading_misses_readings :
  normalize_heading (-200) = (-200)%Q /\
  ~ (-180 < normalize_heading (-200))%Q /\
  normalize_heading 600 = 240%Q /\
  ~ (normalize_heading 600 <= 180)%Q /\
  forall h, (-180 < h)%Q -> (h <= 540)%Q ->
            (-180 < normalize_heading h)%Q /\ (normalize_heading h <= 180)%Q.
Proof.
  split; [reflexivity|]. split; [intros H; vm_compute in H; discriminate|].
  split; [reflexivity|]. split; [intros H; vm_compute in H; now apply H|].
  intros h Hlo Hhi. unfold normalize_heading, Qgtb.
  destruct (Qle_bool h 180) eqn:E; cbn [negb].
  - apply Qle_bool_iff in E. now split.
  - assert (~ (h <= 180)%Q) as Hn.
    { intros Hle. apply Qle_bool_iff in Hle. congruence. }
    split; lra.
Qed.

Lemma normalize_heading_misses_readings_witness :
  (-180 < normalize_heading 350)%Q /\ (normalize_heading 350 <= 180)%Q.
Proof.
  apply (proj2 (proj2 (proj2 (proj2 normalize_heading_misses_readings))) 350%Q);
    [reflexivity | discriminate].
Defined.

(** [gyro_turn] has no tolerance and reports no status.  When it returns,
    the last heading it read, normalized, is at least as large in magnitude
    as the target (the sign is not compared and there is no upper bound),
    and the last thing it did was to stop the two drive motors and wait
    100 ms. *)
Theorem gyro_turn_returns_at_or_past_target
        (w : World) (fuel : nat) (target_deg : Q) (slow_turn axis_turn : bool)
        (st st' : Robot) :
  gyro_turn w fuel target_deg slow_turn axis_turn st = (Ret tt, st') ->
  exists tr h,
    trace st' = tr ++ [Heading h;
                       Did (motor_stop left_motor);
                       Did (motor_stop right_motor);
                       Did (wait_ms 100)] /\
    (Qabs target_deg <= Qabs (normalize_heading h))%Q /\
    motor_speed st' left_motor = 0 /\ motor_speed st' right_motor = 0.
Proof. apply gyro_turn_Ret. Qed.

Lemma gyro_turn_returns_at_or_past_target_witness :
  exists tr h,
    trace (snd (gyro_turn w_fake 60 90 false true st0)) =
      tr ++ [Heading h;
             Did (motor_stop left_motor);
             Did (motor_stop right_motor);
             Did (wait_ms 100)] /\
    (Qabs 90 <= Qabs (normalize_heading h))%Q /\
    motor_speed (snd (gyro_turn w_fake 60 90 false true st0)) left_motor = 0 /\
    motor_speed (snd (gyro_turn w_fake 60 90 false true st0)) right_motor = 0.
Proof.
  apply (gyro_turn_returns_at_or_past_target w_fake 60 90 false true st0).
  vm_compute. reflexivity.
Defined.

(** C2.  The code does not settle within a tolerance of the target.  With
    the physics of the repository's own test double ([test_gyro_turn.py],
    whose tests require [abs(heading - target) <= 2] when [gyro_turn]
    returns), [gyro_turn(90)] returns after reading the heading -91.2,
    which is 181.2 degrees from the target. *)
Lemma gyro_turn_90_returns_far_from_target :
  exists st' tr,
    gyro_turn w_fake 60 90 false true st0 = (Ret tt, st') /\
    trace st' = tr ++ [Heading (- (456 # 5));
                       Did (motor_stop left_motor);
                       Did (motor_stop right_motor);
                       Did (wait_ms 100)] /\
    ~ (Qabs (- (456 # 5) - 90) <= 2)%Q.
Proof.
  exists (snd (gyro_turn w_fake 60 90 false true st0)).
  exists (firstn 288 (trace (snd (gyro_turn w_fake 60 90 false true st0)))).
  split; [vm_compute; reflexivity|].
  split; [vm_compute; reflexivity|].
  intros H. vm_compute in H. now apply H.
Qed.

(** [gyro_turn] has no timeout.  It ends no later than the first poll that
    sees CENTER pressed or a heading that has reached the target; and when
    every poll sees neither (and the motors keep taking the [run]
    commands), it never ends. *)
Theorem gyro_turn_ends_only_on_target_or_abort
        (w : World) (fuel : nat) (target_deg : Q) (slow_turn axis_turn : bool)
        (st : Robot) :
  (forall k, (k < fuel)%nat ->
             poll_ends w target_deg (5 * k + (2 + tick st)) ->
             fst (gyro_turn w fuel target_deg slow_turn axis_turn st) <> OutOfFuel) /\
  ((forall j, poll_continues w target_deg (5 * j + (2 + tick st))) ->
   fst (gyro_turn w fuel target_deg slow_turn axis_turn st) = OutOfFuel).
Proof.
  split.
  - intros k. apply gyro_turn_ends.
  - apply gyro_turn_diverges.
Qed.

Lemma gyro_turn_ends_only_on_target_or_abort_witness :
  fst (gyro_turn w_fake 60 90 false true st0) <> OutOfFuel.
Proof.
  apply (proj1 (gyro_turn_ends_only_on_target_or_abort w_fake 60 90 false true st0)
           57%nat).
  - vm_compute. lia.
  - right. vm_compute. reflexivity.
Defined.

Lemma w_stuck_poll_continues (t : nat) : poll_continues w_stuck 90 t.
Proof.
  split; [reflexivity|]. split; [reflexivity|]. intros i _. reflexivity.
Qed.

(** C3.  The code has no time budget.  On a robot that is held in place,
    so that the heading stays 0, and with CENTER never pressed,
    [gyro_turn(90)] is still in its loop after any number of polls: no
    bound on the polls makes it return or raise. *)
Lemma gyro_turn_90_never_returns_when_stuck :
  ~ exists fuel, fst (gyro_turn w_stuck fuel 90 false true st0) <> OutOfFuel.
Proof.
  intros [fuel H]. apply H. apply gyro_turn_diverges.
  intros j. apply w_stuck_poll_continues.
Qed.

(** [gyro_turn] never commands a drive-base turn.  After resetting the
    heading and waiting 150 ms, every poll that sees no abort and a heading
    short of the target runs the two drive motors in opposite directions
    and waits 10 ms: the left at [-speed] and the right at
    [turn_speed * speed] for a positive target, the left at
    [turn_speed * speed] and the right at [-speed] otherwise, where [speed]
    is 100 for a slow turn and 400 otherwise, and [turn_speed] is 1 for an
    axis turn and 3 otherwise.  So when the first [k] polls go round again,
    the trace of the turn starts with the reset, the wait, and the five
    events of each of these [k] polls in turn. *)
Theorem gyro_turn_runs_the_motors
        (w : World) (fuel : nat) (target_deg : Q) (slow_turn axis_turn : bool)
        (st : Robot) :
  emits not_robot_turn st
        (snd (gyro_turn w fuel target_deg slow_turn axis_turn st)) /\
  (forall k,
      (k <= fuel)%nat ->
      (forall j, (j < k)%nat ->
                 poll_continues w target_deg (5 * j + (2 + tick st))) ->
      exists rest,
        trace (snd (gyro_turn w fuel target_deg slow_turn axis_turn st)) =
        trace st ++ [Did (imu_reset_heading 0); Did (wait_ms 150)] ++
        polls_events w target_deg
          (if slow_turn then 100 else 400) (if axis_turn then 1 else 3)
          (2 + tick st) k ++ rest) /\
  (forall t,
      poll_events w target_deg
        (if slow_turn then 100 else 400) (if axis_turn then 1 else 3) t =
      [ Pressed (pressed_at w t);
        Heading (heading_at w (1 + t));
        Did (motor_run left_motor
               (left_run_speed target_deg
                  (if slow_turn then 100 else 400) (if axis_turn then 1 else 3)));
        Did (motor_run right_motor
               (right_run_speed target_deg
                  (if slow_turn then 100 else 400) (if axis_turn then 1 else 3)));
        Did (wait_ms 10) ]).
Proof.
  split; [|split].
  - apply gyro_turn_emits_no_robot_turn.
  - intros k. apply gyro_turn_polls.
  - reflexivity.
Qed.

(** The first three polls of [gyro_turn(-55, slow_turn=True)] on a robot
    that does not turn: the left motor is run at 100 and the right at -100,
    three times. *)
Lemma gyro_turn_runs_the_motors_witness :
  exists rest,
    trace (snd (gyro_turn w_stuck 3 (-55) true true st0)) =
    trace st0 ++ [Did (imu_reset_heading 0); Did (wait_ms 150)] ++
    ([ Pressed []; Heading 0;
       Did (motor_run left_motor 100); Did (motor_run right_motor (-100));
       Did (wait_ms 10) ] ++
     [ Pressed []; Heading 0;
       Did (motor_run left_motor 100); Did (motor_run right_motor (-100));
       Did (wait_ms 10) ] ++
     [ Pressed []; Heading 0;
       Did (motor_run left_motor 100); Did (motor_run right_motor (-100));
       Did (wait_ms 10) ] ++ []) ++ rest.
Proof.
  apply (proj1 (proj2 (gyro_turn_runs_the_motors w_stuck 3 (-55) true true st0))
           3%nat).
  - lia.
  - intros j _. split; [reflexivity|]. split; [reflexivity|].
    intros i _. reflexivity.
Defined.

(** C4.  The code makes no bulk turn.  In [gyro_turn(90)] the first command
    that moves the robot is [left_motor.run(-400)], not a drive-base turn
    of 87.3 degrees; no drive-base turn is commanded at all, and the last
    heading read is -91.2, outside [88, 92]. *)
Lemma gyro_turn_90_first_motion_is_motor_run :
  find is_motion (trace (snd (gyro_turn w_fake 60 90 false true st0))) =
    Some (Did (motor_run left_motor (-400))) /\
  existsb is_robot_turn (trace (snd (gyro_turn w_fake 60 90 false true st0))) =
    false /\
  find is_read (rev (trace (snd (gyro_turn w_fake 60 90 false true st0)))) =
    Some (Heading (- (456 # 5))).
Proof. vm_compute. repeat split. Qed.

(** ** Missions, failures and the emergency stop *)

(** C5, as the code has it.  A mission whose statements [pre] return and
    whose next statement [s] raises [e]: the mission raises [e] in the
    state [s] left, whatever statements [post] follow, so none of them is
    run.  When [e] is an instance of [Exception], the launcher catches it,
    prints ["Error:"] and [str(e)], sounds the error tone (not the tone for
    a finished mission), shows the selection again and returns normally,
    with the motors as [s] left them.  When [e] is not ([SystemExit],
    [KeyboardInterrupt]), the launcher does not catch it: it raises [e]
    in the state [s] left, with nothing printed and the selection not
    shown. *)
Theorem launch_catches_exceptions_only
        (w : World) (fuel : nat) (name : string)
        (pre post : list (M unit)) (s : M unit) (selected : Z)
        (st st1 st2 : Robot) (e : BaseException) :
  0 <= selected < 6 ->
  run_steps pre (snd (announce_start w name st)) = (Ret tt, st1) ->
  s st1 = (Raise e, st2) ->
  run_steps (pre ++ s :: post) (snd (announce_start w name st)) = (Raise e, st2) /\
  match e with
  | Exception e' =>
      exists st',
        launch w fuel (name, run_steps (pre ++ s :: post)) selected st =
          (Ret tt, st') /\
        trace st' =
          trace st2 ++
          [ Did (print_line (String.append "Error: " (exn_str e')));
            Did (speaker_beep 200 500) ] ++
          selection_events w fuel selected /\
        (forall m, motor_speed st' m = motor_speed st2 m)
  | _ =>
      launch w fuel (name, run_steps (pre ++ s :: post)) selected st =
        (Raise e, st2)
  end.
Proof.
  intros Hsel Hpre Hs.
  pose proof (run_steps_raise pre post s _ _ _ e Hpre Hs) as Hrun.
  split; [exact Hrun|].
  now apply launch_outcome.
Qed.

(** Mission 3 with the drive base unplugged: [setup_drive] and the [print]
    return, the [robot.straight] of the first [drive_cm] raises
    [OSError(19)], and the launcher prints [Error: 19]. *)
Lemma launch_catches_exceptions_only_witness :
  run_steps (mission_3_steps w_unplugged)
            (snd (announce_start w_unplugged "Mission 3" st0)) =
    (Raise (OSError 19),
     snd (run_steps (firstn 3 (mission_3_steps w_unplugged))
                    (snd (announce_start w_unplugged "Mission 3" st0)))) /\
  exists st',
    launch w_unplugged 1 ("Mission 3", mission_3 w_unplugged) 3 st0 = (Ret tt, st') /\
    trace st' =
      trace (snd (run_steps (firstn 3 (mission_3_steps w_unplugged))
                            (snd (announce_start w_unplugged "Mission 3" st0)))) ++
      [ Did (print_line "Error: 19"); Did (speaker_beep 200 500) ] ++
      selection_events w_unplugged 1 3 /\
    (forall m,
        motor_speed st' m =
        motor_speed (snd (run_steps (firstn 3 (mission_3_steps w_unplugged))
                                    (snd (announce_start w_unplugged "Mission 3" st0)))) m).
Proof.
  apply (launch_catches_exceptions_only w_unplugged 1 "Mission 3"
           [setup_drive w_unplugged; print w_unplugged "Mission 3"]
           [drive_cm w_unplugged (-15) 17 15; drive_cm w_unplugged 31 15 10;
            drive_cm w_unplugged (-50) 30 10]
           (drive_cm w_unplugged 41 30 5) 3 st0
           (snd (run_steps [setup_drive w_unplugged; print w_unplugged "Mission 3"]
                           (snd (announce_start w_unplugged "Mission 3" st0))))
           (snd (run_steps (firstn 3 (mission_3_steps w_unplugged))
                           (snd (announce_start w_unplugged "Mission 3" st0))))
           (OSError 19)).
  - lia.
  - reflexivity.
  - reflexivity.
Defined.

(** C5 fails as stated.  The Bluetooth button starts mission 0 and the
    first device call of the mission raises [SystemExit]: the [except
    Exception] of the launcher does not catch it, [main] raises it, and the
    last thing logged is the call that raised: no error is reported and the
    selection is not shown again. *)
Lemma exit_in_a_mission_ends_main :
  fst (main w_exit_in_mission 10 st0) = Raise SystemExit /\
  skipn 5 (trace (snd (main w_exit_in_mission 10 st0))) =
    [ Pressed [];
      Pressed [BLUETOOTH];
      Did (print_line "STARTING (Bluetooth): Mission 0");
      Did (speaker_beep 1000 200);
      Did (light_on WHITE);
      Did (wait_ms 200);
      Failed robot_stop SystemExit ].
Proof. vm_compute. split; reflexivity. Qed.

(** C1, as the code has it.  An emergency stop, wherever CENTER is seen.

    When the five stop calls return.  Inside a mission, at the poll number
    [k] of a [gyro_turn] that the statements [pre] led to: the read of the
    buttons is followed by [robot.stop()] and the stop of the four motors,
    then by the tone, the error message, the error tone and the selection
    display, and by nothing else: no statement of [post] is run, no
    actuator is commanded after the stops, the launcher has reported an
    error and not a finished mission, and every motor is stopped.  At the
    head of [main]'s loop, with no mission running: the same stops, and
    the exception leaves the loop body.

    When the stop call number [i] raises [e].  The stops before it were
    made, the stops after it are not commanded, and the motors they would
    have stopped keep the speed they had; the check raises [e] in place of
    [RuntimeError("Emergency stop")].  At the head of [main]'s loop, [e]
    leaves the loop body.  Inside a mission the mission raises [e]: when
    it is [robot.stop()] that raised, after a poll that ran them, the two
    drive motors are still running at the speeds of the turn; the launcher
    reports [e] as it reports any failure when [e] is an instance of
    [Exception], and raises [e] when it is not. *)
Theorem emergency_stop_stops_what_it_reaches (w : World) (fuel : nat) :
  (forall (name : string) (pre post : list (M unit)) (target_deg : Q)
          (slow_turn axis_turn : bool) (selected : Z) (st st1 : Robot) (k : nat),
      0 <= selected < 6 ->
      run_steps pre (snd (announce_start w name st)) = (Ret tt, st1) ->
      (k < fuel)%nat ->
      (forall j, (j < k)%nat ->
                 poll_continues w target_deg (5 * j + (2 + tick st1))) ->
      button_in CENTER (pressed_at w (5 * k + (2 + tick st1))) = true ->
      no_fault w (1 + (5 * k + (2 + tick st1))) 5 ->
      exists st' before,
        launch w fuel
          (name,
           run_steps (pre ++ gyro_turn w fuel target_deg slow_turn axis_turn :: post))
          selected st = (Ret tt, st') /\
        List.length before = (5 * k + (2 + tick st1))%nat /\
        trace st' =
          before ++
          emergency_stop_events (pressed_at w (5 * k + (2 + tick st1))) ++
          [ Did (print_line "Error: Emergency stop");
            Did (speaker_beep 200 500) ] ++
          selection_events w fuel selected /\
        Forall no_actuator
          ([ Did (speaker_beep 200 300);
             Did (print_line "Error: Emergency stop");
             Did (speaker_beep 200 500) ] ++
           selection_events w fuel selected) /\
        all_stopped st') /\
  (forall (selected : Z) (st : Robot),
      button_in CENTER (pressed_at w (tick st)) = true ->
      no_fault w (1 + tick st) 5 ->
      exists st',
        main_body w fuel selected st =
          (Raise (RuntimeError "Emergency stop"), st') /\
        trace st' = trace st ++ emergency_stop_events (pressed_at w (tick st)) /\
        all_stopped st') /\
  (forall (selected : Z) (st : Robot) (i : nat) (e : BaseException),
      button_in CENTER (pressed_at w (tick st)) = true ->
      (i < 5)%nat ->
      no_fault w (1 + tick st) i ->
      fault_at w (i + (1 + tick st)) = Some e ->
      exists st',
        emergency_stop_check w st = (Raise e, st') /\
        main_body w fuel selected st = (Raise e, st') /\
        trace st' = trace st ++ failed_stop_events (pressed_at w (tick st)) i e /\
        (forall m, not_stopped_by (firstn i emergency_stop_cmds) m ->
                   motor_speed st' m = motor_speed st m)) /\
  (forall (name : string) (pre post : list (M unit)) (target_deg : Q)
          (slow_turn axis_turn : bool) (selected : Z) (st st1 : Robot)
          (k i : nat) (e : BaseException),
      0 <= selected < 6 ->
      run_steps pre (snd (announce_start w name st)) = (Ret tt, st1) ->
      (k < fuel)%nat ->
      (forall j, (j < k)%nat ->
                 poll_continues w target_deg (5 * j + (2 + tick st1))) ->
      button_in CENTER (pressed_at w (5 * k + (2 + tick st1))) = true ->
      (i < 5)%nat ->
      no_fault w (1 + (5 * k + (2 + tick st1))) i ->
      fault_at w (i + (1 + (5 * k + (2 + tick st1)))) = Some e ->
      exists st2 before,
        run_steps (pre ++ gyro_turn w fuel target_deg slow_turn axis_turn :: post)
                  (snd (announce_start w name st)) = (Raise e, st2) /\
        List.length before = (5 * k + (2 + tick st1))%nat /\
        trace st2 =
          before ++
          failed_stop_events (pressed_at w (5 * k + (2 + tick st1))) i e /\
        ((0 < k)%nat -> i = 0%nat ->
         motor_speed st2 left_motor =
           left_run_speed target_deg
             (if slow_turn then 100 else 400) (if axis_turn then 1 else 3) /\
         motor_speed st2 right_motor =
           right_run_speed target_deg
             (if slow_turn then 100 else 400) (if axis_turn then 1 else 3) /\
         motor_speed st2 left_motor <> 0 /\
         motor_speed st2 right_motor <> 0) /\
        match e with
        | Exception e' =>
            exists st',
              launch w fuel
                (name,
                 run_steps
                   (pre ++ gyro_turn w fuel target_deg slow_turn axis_turn :: post))
                selected st = (Ret tt, st') /\
              trace st' =
                trace st2 ++
                [ Did (print_line (String.append "Error: " (exn_str e')));
                  Did (speaker_beep 200 500) ] ++
                selection_events w fuel selected /\
              (forall m, motor_speed st' m = motor_speed st2 m)
        | _ =>
            launch w fuel
              (name,
               run_steps
                 (pre ++ gyro_turn w fuel target_deg slow_turn axis_turn :: post))
              selected st = (Raise e, st2)
        end).
Proof.
  split; [|split; [|split]].
  - intros name pre post target_deg slow_turn axis_turn selected st st1 k
           Hsel Hpre Hk Hc Hb Hf.
    destruct (gyro_turn_abort w fuel target_deg slow_turn axis_turn k st1 Hk Hc Hb Hf)
      as (st2 & before & Hg & Hlen & Htr & Hstop).
    pose proof (run_steps_raise pre post _ _ _ _ _ Hpre Hg) as Hrun.
    destruct (launch_Raise w fuel name _ selected st st2 _ Hsel Hrun)
      as (st' & Hl & Htr' & Hm).
    exists st', before. split; [exact Hl|]. split; [exact Hlen|].
    split; [|split].
    + rewrite Htr', Htr, <- app_assoc. reflexivity.
    + repeat constructor.
    + intros m. rewrite Hm. apply Hstop.
  - intros selected st. apply main_body_abort.
  - intros selected st i e Hb Hi Hok Hfail.
    destruct (emergency_stop_check_stop_fails w st i e Hb Hi Hok Hfail)
      as (st' & He & Htr & Hm).
    exists st'. split; [exact He|]. split; [|split; assumption].
    unfold main_body. now rewrite (bind_Raise _ _ _ _ _ He).
  - intros name pre post target_deg slow_turn axis_turn selected st st1 k i e
           Hsel Hpre Hk Hc Hb Hi Hok Hfail.
    destruct (gyro_turn_poll_raises w fuel target_deg slow_turn axis_turn k st1 Hk Hc)
      as (st_k & Ht & Hrun & Hg).
    rewrite <- Ht in Hb, Hok, Hfail.
    destruct (emergency_stop_check_stop_fails w st_k i e Hb Hi Hok Hfail)
      as (st2 & He & Htr & Hm).
    pose proof (run_steps_raise pre post _ _ _ _ _ Hpre (Hg e st2 He)) as Hraise.
    exists st2, (trace st_k). split; [exact Hraise|]. split; [exact Ht|].
    split; [|split].
    + now rewrite <- Ht.
    + intros Hk0 ->. destruct (Hrun Hk0) as [Hl Hr].
      rewrite !Hm by reflexivity. rewrite Hl, Hr.
      unfold left_run_speed, right_run_speed.
      destruct (Qgtb target_deg 0), slow_turn, axis_turn; repeat split; discriminate.
    + now apply launch_outcome.
Qed.

(** Mission 0, CENTER pressed at the third poll of its first turn: with
    every stop returning, and with the [robot.stop()] of the check
    raising [OSError(19)] while the motors run at -100 and 100. *)
Lemma emergency_stop_stops_what_it_reaches_witness :
  (exists st' before,
      launch w_abort_in_turn 5 ("Mission 0", mission_0 w_abort_in_turn 5) 0 st0 =
        (Ret tt, st') /\
      List.length before = 23%nat /\
      trace st' =
        before ++ emergency_stop_events [CENTER] ++
        [ Did (print_line "Error: Emergency stop"); Did (speaker_beep 200 500) ] ++
        selection_events w_abort_in_turn 5 0 /\
      Forall no_actuator
        ([ Did (speaker_beep 200 300);
           Did (print_line "Error: Emergency stop");
           Did (speaker_beep 200 500) ] ++
         selection_events w_abort_in_turn 5 0) /\
      all_stopped st') /\
  (exists st2 before,
      mission_0 w_abort_stop_fails 5
        (snd (announce_start w_abort_stop_fails "Mission 0" st0)) =
        (Raise (OSError 19), st2) /\
      List.length before = 23%nat /\
      trace st2 = before ++ failed_stop_events [CENTER] 0 (OSError 19) /\
      ((0 < 2)%nat -> 0%nat = 0%nat ->
       motor_speed st2 left_motor = left_run_speed 10 100 1 /\
       motor_speed st2 right_motor = right_run_speed 10 100 1 /\
       motor_speed st2 left_motor <> 0 /\
       motor_speed st2 right_motor <> 0) /\
      exists st',
        launch w_abort_stop_fails 5 ("Mission 0", mission_0 w_abort_stop_fails 5) 0 st0 =
          (Ret tt, st') /\
        trace st' =
          trace st2 ++
          [ Did (print_line "Error: 19"); Did (speaker_beep 200 500) ] ++
          selection_events w_abort_stop_fails 5 0 /\
        (forall m, motor_speed st' m = motor_speed st2 m)).
Proof.
  split.
  - apply (proj1 (emergency_stop_stops_what_it_reaches w_abort_in_turn 5)
             "Mission 0"
             (firstn 3 (mission_0_steps w_abort_in_turn 5))
             (skipn 4 (mission_0_steps w_abort_in_turn 5))
             10%Q true true 0 st0
             (snd (run_steps (firstn 3 (mission_0_steps w_abort_in_turn 5))
                             (snd (announce_start w_abort_in_turn "Mission 0" st0))))
             2%nat).
    + lia.
    + reflexivity.
    + lia.
    + intros j Hj.
      assert (j = 0 \/ j = 1)%nat as [-> | ->] by lia;
        (split; [reflexivity|]; split; [reflexivity|]; intros i _; reflexivity).
    + reflexivity.
    + intros i _. reflexivity.
  - apply (proj2 (proj2 (proj2 (emergency_stop_stops_what_it_reaches
                                  w_abort_stop_fails 5)))
             "Mission 0"
             (firstn 3 (mission_0_steps w_abort_stop_fails 5))
             (skipn 4 (mission_0_steps w_abort_stop_fails 5))
             10%Q true true 0 st0
             (snd (run_steps (firstn 3 (mission_0_steps w_abort_stop_fails 5))
                             (snd (announce_start w_abort_stop_fails "Mission 0" st0))))
             2%nat 0%nat (OSError 19)).
    + lia.
    + reflexivity.
    + lia.
    + intros j Hj.
      assert (j = 0 \/ j = 1)%nat as [-> | ->] by lia;
        (split; [reflexivity|]; split; [reflexivity|]; intros i Hi;
         assert (i = 0 \/ i = 1)%nat as [-> | ->] by lia; reflexivity).
    + reflexivity.
    + lia.
    + intros i Hi. lia.
    + reflexivity.
Defined.

(** C1 fails as stated.  Mission 0, CENTER pressed at the third poll of
    its first [gyro_turn], the drive motors running at -100 and 100; the
    [robot.stop()] of the emergency stop raises [OSError(19)].  After the
    read that saw CENTER, no motor is commanded to stop: the launcher
    prints [Error: 19], shows the selection and returns, with the two
    drive motors still running. *)
Lemma emergency_stop_leaves_motors_running_when_a_stop_fails :
  fst (launch w_abort_stop_fails 5 ("Mission 0", mission_0 w_abort_stop_fails 5) 0 st0) =
    Ret tt /\
  skipn 23
    (trace (snd (launch w_abort_stop_fails 5
                   ("Mission 0", mission_0 w_abort_stop_fails 5) 0 st0))) =
    [ Pressed [CENTER];
      Failed robot_stop (OSError 19);
      Did (print_line "Error: 19");
      Did (speaker_beep 200 500) ] ++
    selection_events w_abort_stop_fails 5 0 /\
  motor_speed
    (snd (launch w_abort_stop_fails 5
            ("Mission 0", mission_0 w_abort_stop_fails 5) 0 st0)) left_motor = -100 /\
  motor_speed
    (snd (launch w_abort_stop_fails 5
            ("Mission 0", mission_0 w_abort_stop_fails 5) 0 st0)) right_motor = 100.
Proof. vm_compute. repeat split. Qed.

(** ** The selector loop *)







(** * Further properties of the code *)

(** ** Outcomes that cannot occur *)

Lemma never_raises_ret {A} (a : A) : never_raises (ret a).
Proof. intros st e st' H. discriminate. Qed.

Lemma never_raises_bind {A B} (m : M A) (k : A -> M B) :
  never_raises m -> (forall a, never_raises (k a)) -> never_raises (bind m k).
Proof.
  intros Hm Hk st e st' H. unfold bind in H.
  destruct (m st) as [[a|e1|] st1] eqn:E.
  - now apply (Hk a st1 e st').
  - now apply (Hm st e1 st1).
  - discriminate.
Qed.



Lemma never_raises_for_range (n : nat) (body : M unit) :
  never_raises body -> never_raises (for_range n body).
Proof.
  intros Hb. induction n as [|n IH]; cbn [for_range].
  - apply never_raises_ret.
  - apply never_raises_bind; [exact Hb | intros _; exact IH].
Qed.


Lemma follows_hub (w : World) (c : cmd) :
  is_actuator c = false -> follows (emits no_actuator) (call w c).
Proof.
  intros Hc st. apply emits_call; [exact Hc | intros e; exact Hc].
Qed.





(** ** The launcher, whatever the mission does *)

Section LauncherTotal.

Variable w : World.
Variable fuel : nat.





End LauncherTotal.



(** ** The selector loop, whatever the buttons do *)

Section SelectorLoop.

Variable w : World.
Variable fuel : nat.

Lemma select_previous_range (i : Z) : 0 <= select_previous w fuel i < 6.
Proof.
  unfold select_previous. cbn [MISSIONS List.length].
  apply Z.mod_pos_bound. reflexivity.
Qed.









End SelectorLoop.



(** ** One press, one step *)

Section Debounce.

Variable w : World.
Variable fuel : nat.

Lemma show_selection_trace (i : Z) (st : Robot) :
  0 <= i < 6 ->
  exists st',
    show_selection w fuel i st = (Ret tt, st') /\
    tick st' = (2 + tick st)%nat /\
    trace st' = trace st ++ show_selection_events w fuel i /\
    (forall m, motor_speed st' m = motor_speed st m).
Proof.
  intros H.
  assert (i = 0 \/ i = 1 \/ i = 2 \/ i = 3 \/ i = 4 \/ i = 5) as Hs by lia.
  destruct Hs as [-> | [-> | [-> | [-> | [-> | ->]]]]];
    (eexists; split; [reflexivity|]; split;
     [ unfold tick; cbn -[app]; rewrite !length_app; simpl; lia
     | split; [cbn -[app]; rewrite <- !app_assoc; reflexivity | reflexivity] ]).
Qed.

(** A button held for [k] polls of its release loop and then released. *)
Lemma wait_released_held (b : Button) (k n : nat) (st : Robot) :
  (k < n)%nat ->
  (forall j, (j < k)%nat -> button_in b (pressed_at w (2 * j + tick st)) = true) ->
  button_in b (pressed_at w (2 * k + tick st)) = false ->
  exists st',
    wait_released w n b st = (Ret tt, st') /\
    tick st' = (1 + 2 * k + tick st)%nat /\
    trace st' =
      trace st ++ held_events w (tick st) k ++
      [Pressed (pressed_at w (2 * k + tick st))] /\
    (forall m, motor_speed st' m = motor_speed st m).
Proof.
  revert n st. induction k as [|k IH]; intros n st Hn Hheld Hrel;
    (destruct n as [|n]; [lia|]); cbn [wait_released];
    unfold bind at 1, buttons_pressed at 1.
  - change (2 * 0 + tick st)%nat with (tick st) in Hrel. rewrite Hrel.
    eexists. split; [reflexivity|]. split; [now rewrite tick_log|].
    split; [reflexivity | reflexivity].
  - pose proof (Hheld 0%nat ltac:(lia)) as H0.
    change (2 * 0 + tick st)%nat with (tick st) in H0. rewrite H0.
    unfold bind at 1, wait, call. cbn [is_actuator].
    set (st1 := effect (wait_ms 20)
                  (log (Did (wait_ms 20)) (log (Pressed (pressed_at w (tick st))) st))).
    assert (tick st1 = (2 + tick st)%nat) as Ht1
        by (subst st1; now rewrite tick_done, tick_log).
    destruct (IH n st1) as (st' & Hw & Ht & Htr & Hm).
    + lia.
    + intros j Hj. rewrite Ht1.
      replace (2 * j + (2 + tick st))%nat with (2 * S j + tick st)%nat by lia.
      apply Hheld. lia.
    + rewrite Ht1.
      replace (2 * k + (2 + tick st))%nat with (2 * S k + tick st)%nat by lia.
      exact Hrel.
    + exists st'. split; [exact Hw|]. split; [lia|]. split.
      * rewrite Htr, Ht1.
        replace (2 * k + (2 + tick st))%nat with (2 * S k + tick st)%nat by lia.
        subst st1. cbn -[app Nat.mul]. rewrite <- !app_assoc. reflexivity.
      * intros m. rewrite Hm. reflexivity.
Qed.

(** A button that is never released. *)
Lemma wait_released_stuck (b : Button) (n : nat) (st : Robot) :
  (forall j, button_in b (pressed_at w (2 * j + tick st)) = true) ->
  fst (wait_released w n b st) = OutOfFuel.
Proof.
  revert st. induction n as [|n IH]; intros st Hheld; [reflexivity|].
  cbn [wait_released]. unfold bind at 1, buttons_pressed at 1.
  pose proof (Hheld 0%nat) as H0.
  change (2 * 0 + tick st)%nat with (tick st) in H0. rewrite H0.
  unfold bind at 1, wait, call. cbn [is_actuator].
  apply IH. intros j. rewrite tick_done, tick_log.
  replace (2 * j + S (S (tick st)))%nat with (2 * S j + tick st)%nat by lia.
  apply Hheld.
Qed.

End Debounce.

(** A press of RIGHT or of LEFT that is held moves the selection once.
    The pass of [main]'s loop that reads the button shows the new
    selection, then polls every 20 ms until the button is released; however
    many polls [k] that takes, it returns the index one step further, and
    between the two reads at its head and its final wait of 50 ms it has
    logged one selection display and the [k] polls, nothing else. *)
Theorem one_press_one_step
        (w : World) (fuel : nat) (b : Button) (selected : Z) (st : Robot) (k : nat) :
  b = RIGHT \/ b = LEFT ->
  0 <= selected < 6 ->
  (k < fuel)%nat ->
  button_in CENTER (pressed_at w (tick st)) = false ->
  pressed_at w (1 + tick st) = [b] ->
  (forall j, (j < k)%nat ->
             button_in b (pressed_at w (2 * j + (4 + tick st))) = true) ->
  button_in b (pressed_at w (2 * k + (4 + tick st))) = false ->
  exists st',
    main_body w fuel selected st =
      (Ret (match b with
            | RIGHT => select_next w fuel selected
            | _ => select_previous w fuel selected
            end), st') /\
    trace st' =
      trace st ++
      [Pressed (pressed_at w (tick st)); Pressed [b]] ++
      show_selection_events w fuel
        (match b with
         | RIGHT => select_next w fuel selected
         | _ => select_previous w fuel selected
         end) ++
      held_events w (4 + tick st) k ++
      [Pressed (pressed_at w (2 * k + (4 + tick st))); Did (wait_ms 50)].
Proof.
  intros Hb Hsel Hk Hc Hp Hheld Hrel.
  unfold main_body.
  rewrite (bind_Ret _ _ _ _ _ (emergency_stop_check_clear w st Hc)).
  unfold bind at 1, buttons_pressed at 1. rewrite tick_log.
  change (S (tick st)) with (1 + tick st)%nat. rewrite Hp.
  remember (log (Pressed [b]) (log (Pressed (pressed_at w (tick st))) st)) as st_p.
  assert (tick st_p = (2 + tick st)%nat) as Htp
      by (subst st_p; now rewrite !tick_log).
  assert (trace st_p = trace st ++ [Pressed (pressed_at w (tick st)); Pressed [b]])
    as Htrp by (subst st_p; cbn -[app]; now rewrite <- app_assoc).
  set (s' := match b with
             | RIGHT => select_next w fuel selected
             | _ => select_previous w fuel selected
             end).
  assert (0 <= s' < 6) as Hs'.
  { subst s'. destruct Hb as [-> | ->];
      [apply select_next_range | apply select_previous_range]. }
  destruct (show_selection_trace w fuel s' st_p Hs') as (st1 & Hs & Ht1 & Htr1 & _).
  destruct (wait_released_held w b k fuel st1 Hk) as (st2 & Hw & Ht2 & Htr2 & _).
  { intros j Hj. rewrite Ht1, Htp.
    replace (2 * j + (2 + (2 + tick st)))%nat with (2 * j + (4 + tick st))%nat by lia.
    now apply Hheld. }
  { rewrite Ht1, Htp.
    replace (2 * k + (2 + (2 + tick st)))%nat with (2 * k + (4 + tick st))%nat by lia.
    exact Hrel. }
  exists (effect (wait_ms POLL_MS) (log (Did (wait_ms POLL_MS)) st2)).
  split.
  - subst s'. destruct Hb as [-> | ->]; cbn [button_in existsb Button_eqb orb].
    + unfold bind at 1. unfold bind at 1. unfold bind at 1. rewrite Hs.
      unfold bind at 1. rewrite Hw. reflexivity.
    + unfold bind at 1. cbn [ret]. unfold bind at 1. unfold bind at 1.
      unfold bind at 1. rewrite Hs. unfold bind at 1. rewrite Hw. reflexivity.
  - rewrite trace_done, Htr2, Htr1, Htrp, Ht1, Htp.
    replace (2 * k + (2 + (2 + tick st)))%nat with (2 * k + (4 + tick st))%nat by lia.
    change (2 + (2 + tick st))%nat with (4 + tick st)%nat.
    rewrite <- !app_assoc. reflexivity.
Qed.

Lemma one_press_one_step_witness :
  exists st',
    main_body (w_buttons (fun t => if Nat.leb t 8 then [RIGHT] else [])) 5 5 st0 =
      (Ret (select_next (w_buttons (fun t => if Nat.leb t 8 then [RIGHT] else [])) 5 5),
       st') /\
    trace st' =
      trace st0 ++
      [Pressed [RIGHT]; Pressed [RIGHT]] ++
      show_selection_events (w_buttons (fun t => if Nat.leb t 8 then [RIGHT] else [])) 5
        (select_next (w_buttons (fun t => if Nat.leb t 8 then [RIGHT] else [])) 5 5) ++
      held_events (w_buttons (fun t => if Nat.leb t 8 then [RIGHT] else [])) 4 3 ++
      [Pressed []; Did (wait_ms 50)].
Proof.
  apply (one_press_one_step
           (w_buttons (fun t => if Nat.leb t 8 then [RIGHT] else [])) 5 RIGHT 5 st0 3).
  - now left.
  - lia.
  - lia.
  - reflexivity.
  - reflexivity.
  - intros j Hj.
    assert (j = 0 \/ j = 1 \/ j = 2)%nat as [-> | [-> | ->]] by lia; reflexivity.
  - reflexivity.
Defined.

(** LEFT and RIGHT read together cancel.  The pass of [main]'s loop that
    reads both buttons (and not the Bluetooth button) first steps the
    selection forward and shows it, then, from the same reading, steps it
    back and shows it again: it returns the index it started with. *)
Theorem left_and_right_together_cancel
        (w : World) (fuel : nat) (selected : Z) (st : Robot) :
  0 <= selected < 6 ->
  (0 < fuel)%nat ->
  button_in CENTER (pressed_at w (tick st)) = false ->
  button_in BLUETOOTH (pressed_at w (1 + tick st)) = false ->
  button_in RIGHT (pressed_at w (1 + tick st)) = true ->
  button_in LEFT (pressed_at w (1 + tick st)) = true ->
  button_in RIGHT (pressed_at w (4 + tick st)) = false ->
  button_in LEFT (pressed_at w (7 + tick st)) = false ->
  exists st',
    main_body w fuel selected st = (Ret selected, st') /\
    trace st' =
      trace st ++
      [Pressed (pressed_at w (tick st)); Pressed (pressed_at w (1 + tick st))] ++
      show_selection_events w fuel (select_next w fuel selected) ++
      [Pressed (pressed_at w (4 + tick st))] ++
      show_selection_events w fuel selected ++
      [Pressed (pressed_at w (7 + tick st)); Did (wait_ms 50)].
Proof.
  intros Hsel Hfuel Hc Hbt Hr Hl Hrr Hlr.
  unfold main_body.
  rewrite (bind_Ret _ _ _ _ _ (emergency_stop_check_clear w st Hc)).
  unfold bind at 1, buttons_pressed at 1. rewrite tick_log.
  change (S (tick st)) with (1 + tick st)%nat. rewrite Hbt, Hr, Hl.
  remember (log (Pressed (pressed_at w (1 + tick st)))
                (log (Pressed (pressed_at w (tick st))) st)) as st_p.
  assert (tick st_p = (2 + tick st)%nat) as Htp
      by (subst st_p; now rewrite !tick_log).
  assert (trace st_p =
          trace st ++ [Pressed (pressed_at w (tick st));
                       Pressed (pressed_at w (1 + tick st))])
    as Htrp by (subst st_p; cbn -[app]; now rewrite <- app_assoc).
  destruct (show_selection_trace w fuel (select_next w fuel selected) st_p
              (select_next_range _ _ _)) as (st1 & Hs1 & Ht1 & Htr1 & _).
  destruct (wait_released_held w RIGHT 0 fuel st1 Hfuel) as (st2 & Hw2 & Ht2 & Htr2 & _).
  { intros j Hj. lia. }
  { rewrite Ht1, Htp. exact Hrr. }
  assert (0 <= select_previous w fuel (select_next w fuel selected) < 6) as Hback
      by apply select_previous_range.
  destruct (show_selection_trace w fuel
              (select_previous w fuel (select_next w fuel selected)) st2 Hback)
    as (st3 & Hs3 & Ht3 & Htr3 & _).
  destruct (wait_released_held w LEFT 0 fuel st3 Hfuel) as (st4 & Hw4 & Ht4 & Htr4 & _).
  { intros j Hj. lia. }
  { rewrite Ht3, Ht2, Ht1, Htp. exact Hlr. }
  exists (effect (wait_ms POLL_MS) (log (Did (wait_ms POLL_MS)) st4)).
  split.
  - unfold bind, ret. rewrite Hs1. lazy beta iota. rewrite Hw2. lazy beta iota.
    rewrite Hs3. lazy beta iota. rewrite Hw4. lazy beta iota.
    unfold wait, call. cbn [is_actuator].
    now rewrite (select_previous_next w fuel selected Hsel).
  - rewrite trace_done, Htr4, Htr3, Htr2, Htr1, Htrp, Ht3, Ht2, Ht1, Htp.
    rewrite (select_previous_next w fuel selected Hsel).
    cbn [held_events]. rewrite <- !app_assoc. reflexivity.
Qed.

Lemma left_and_right_together_cancel_witness :
  exists st',
    main_body (w_buttons (fun t => if Nat.eqb t 1 then [LEFT; RIGHT] else [])) 1 4 st0 =
      (Ret 4, st') /\
    trace st' =
      trace st0 ++
      [Pressed []; Pressed [LEFT; RIGHT]] ++
      show_selection_events
        (w_buttons (fun t => if Nat.eqb t 1 then [LEFT; RIGHT] else [])) 1
        (select_next (w_buttons (fun t => if Nat.eqb t 1 then [LEFT; RIGHT] else [])) 1 4) ++
      [Pressed []] ++
      show_selection_events
        (w_buttons (fun t => if Nat.eqb t 1 then [LEFT; RIGHT] else [])) 1 4 ++
      [Pressed []; Did (wait_ms 50)].
Proof.
  apply (left_and_right_together_cancel
           (w_buttons (fun t => if Nat.eqb t 1 then [LEFT; RIGHT] else [])) 1 4 st0);
    first [lia | reflexivity].
Defined.

(** ** What does nothing to the robot *)

Lemma quiet_refl (st : Robot) : quiet st st.
Proof.
  split; [apply emits_refl|]. split; [reflexivity | apply same_settings_refl].
Qed.

Lemma quiet_trans (a b c : Robot) : quiet a b -> quiet b c -> quiet a c.
Proof.
  intros (E1 & M1 & S1) (E2 & M2 & S2). split; [|split].
  - exact (emits_trans _ _ _ _ E1 E2).
  - intros m. now rewrite M2, M1.
  - exact (same_settings_trans _ _ _ S1 S2).
Qed.

Lemma quiet_hub (w : World) (c : cmd) :
  is_actuator c = false -> follows quiet (call w c).
Proof.
  intros Hc st. split; [now apply follows_hub|].
  unfold call. rewrite Hc. cbn [snd]. destruct c; try discriminate;
    (split; [reflexivity | split; reflexivity]).
Qed.

Lemma quiet_buttons_pressed (w : World) : follows quiet (buttons_pressed w).
Proof.
  intros st. split; [now apply emits_log|].
  split; [reflexivity | split; reflexivity].
Qed.

Lemma quiet_index {A} (l : list A) (i : Z) : follows quiet (index l i).
Proof.
  intros st. unfold index.
  destruct ((0 <=? (if i <? 0 then i + Z.of_nat (List.length l) else i)) &&
            ((if i <? 0 then i + Z.of_nat (List.length l) else i)
             <? Z.of_nat (List.length l)))%bool;
    [destruct (nth_error l _)|]; apply quiet_refl.
Qed.

Lemma quiet_show_selection (w : World) (fuel : nat) (i : Z) :
  follows quiet (show_selection w fuel i).
Proof.
  unfold show_selection, set_mission_light, print.
  apply follows_bind; [exact quiet_trans | apply quiet_index | intros entry].
  apply follows_bind; [exact quiet_trans | now apply quiet_hub | intros _].
  apply follows_bind; [exact quiet_trans | apply quiet_index | intros c].
  now apply quiet_hub.
Qed.

Lemma quiet_wait_released (w : World) (n : nat) (b : Button) :
  follows quiet (wait_released w n b).
Proof.
  induction n as [|n IH]; cbn [wait_released].
  - intros st. apply quiet_refl.
  - apply follows_bind; [exact quiet_trans | apply quiet_buttons_pressed | intros bs].
    destruct (button_in b bs); [|intros st; apply quiet_refl].
    apply follows_bind; [exact quiet_trans | now apply quiet_hub | intros _; exact IH].
Qed.

(** Choosing a mission does nothing to the robot.  A pass of [main]'s loop
    that sees neither CENTER nor the Bluetooth button pressed, whatever
    else is pressed and whatever the selection is, commands no actuator
    and leaves the motors and the settings of the drive base as they
    were. *)
Theorem selecting_does_nothing_to_the_robot
        (w : World) (fuel : nat) (selected : Z) (st : Robot) :
  button_in CENTER (pressed_at w (tick st)) = false ->
  button_in BLUETOOTH (pressed_at w (1 + tick st)) = false ->
  quiet st (snd (main_body w fuel selected st)).
Proof.
  intros Hc Hbt. unfold main_body.
  rewrite (bind_Ret _ _ _ _ _ (emergency_stop_check_clear w st Hc)).
  unfold bind at 1, buttons_pressed at 1. rewrite tick_log.
  change (S (tick st)) with (1 + tick st)%nat. rewrite Hbt.
  apply (quiet_trans _ (log (Pressed (pressed_at w (tick st))) st)).
  { apply (quiet_buttons_pressed w st). }
  apply (quiet_trans _ (log (Pressed (pressed_at w (1 + tick st)))
                            (log (Pressed (pressed_at w (tick st))) st))).
  { split; [now apply emits_log|]. split; [reflexivity | split; reflexivity]. }
  match goal with
  | |- quiet ?s (snd (?f ?s)) => generalize s; change (follows quiet f)
  end.
  assert (Hsel : forall b s old,
             follows quiet
               (if button_in b (pressed_at w (1 + tick st))
                then show_selection w fuel s ;; wait_released w fuel b ;; ret s
                else ret old)).
  { intros b s old. destruct (button_in b (pressed_at w (1 + tick st)));
      [|intros st1; apply quiet_refl].
    apply follows_bind; [exact quiet_trans | apply quiet_show_selection | intros _].
    apply follows_bind; [exact quiet_trans | apply quiet_wait_released | intros _].
    intros st1. apply quiet_refl. }
  apply follows_bind; [exact quiet_trans | apply Hsel | intros s1].
  apply follows_bind; [exact quiet_trans | apply Hsel | intros s2].
  apply follows_bind; [exact quiet_trans | now apply quiet_hub | intros _].
  intros st1. apply quiet_refl.
Qed.

Lemma selecting_does_nothing_to_the_robot_witness :
  quiet st0 (snd (main_body w_left_at_0 1 0 st0)).
Proof.
  apply (selecting_does_nothing_to_the_robot w_left_at_0 1 0 st0); reflexivity.
Defined.

(** ** The helpers that only sound and wait *)





(** ** [wait_release_all] *)

Section WaitReleaseAll.

Variable w : World.





End WaitReleaseAll.



(** ** The emergency stop when a stop call fails *)

(** The five stops of [emergency_stop_check] are made one after the other
    with nothing to catch a failure.  If the stop number [i] (0 for
    [robot.stop()], then the left, right, C and D motors) is the first
    that fails, with [e], then the stops before it were made, no stop
    after it is commanded, the tone is not sounded, and the check raises
    [e] instead of [RuntimeError("Emergency stop")]. *)
Theorem emergency_stop_check_stops_at_first_failure
        (w : World) (st : Robot) (i : nat) (e : exn) :
  button_in CENTER (pressed_at w (tick st)) = true ->
  (i < 5)%nat ->
  no_fault w (1 + tick st) i ->
  fault_at w (i + (1 + tick st)) = Some e ->
  exists st',
    emergency_stop_check w st = (Raise e, st') /\
    trace st' =
      trace st ++
      Pressed (pressed_at w (tick st)) ::
      map Did (firstn i emergency_stop_cmds) ++
      [Failed (nth i emergency_stop_cmds robot_stop) e].
Proof.
  intros Hb Hi Hok Hfail.
  assert (forall j, (j < i)%nat -> fault_at w (j + S (tick st)) = None) as Hok'
      by (intros j Hj; now apply Hok).
  unfold emergency_stop_check, bind, buttons_pressed, beep, call. rewrite Hb.
  cbn [is_actuator]. cbn [Nat.add] in Hfail.
  destruct i as [|[|[|[|[|i]]]]]; [| | | | |lia];
    try (pose proof (Hok' 0%nat ltac:(lia)) as F0);
    try (pose proof (Hok' 1%nat ltac:(lia)) as F1);
    try (pose proof (Hok' 2%nat ltac:(lia)) as F2);
    try (pose proof (Hok' 3%nat ltac:(lia)) as F3);
    clear Hok Hok'; cbn [Nat.add] in *;
    repeat (rewrite ?tick_done, ?tick_log;
            match goal with
            | H : fault_at w ?t = _ |- context [fault_at w ?t] => rewrite H
            end);
    (eexists; split; [reflexivity|]; cbn -[app]; rewrite <- ?app_assoc; reflexivity).
Qed.

Lemma emergency_stop_check_stops_at_first_failure_witness :
  exists st',
    emergency_stop_check
      {| pressed_at := fun _ => [CENTER];
         heading_at := fun _ => 0%Q;
         fault_at := fun t => if Nat.eqb t 3 then Some (OSError 19) else None |}
      st0 = (Raise (OSError 19), st') /\
    trace st' =
      trace st0 ++
      Pressed [CENTER] ::
      map Did (firstn 2 emergency_stop_cmds) ++
      [Failed (nth 2 emergency_stop_cmds robot_stop) (OSError 19)].
Proof.
  apply (emergency_stop_check_stops_at_first_failure
           {| pressed_at := fun _ => [CENTER];
              heading_at := fun _ => 0%Q;
              fault_at := fun t => if Nat.eqb t 3 then Some (OSError 19) else None |}
           st0 2 (OSError 19)).
  - reflexivity.
  - lia.
  - intros j Hj. assert (j = 0 \/ j = 1)%nat as [-> | ->] by lia; reflexivity.
  - reflexivity.
Defined.

(** ** The selection display and the tables *)

(** [show_selection(i)] shows a whole entry or nothing.  The two tables
    have six entries each, so for [-6 <= i < 6] (Python counts a negative
    index from the end) it prints the name and lights the colour of the
    same mission, number [i mod 6]; for any other [i] both it and
    [set_mission_light(i)] raise [IndexError] with nothing printed and the
    light unchanged. *)
Theorem show_selection_all_or_nothing (w : World) (fuel : nat) (i : Z) (st : Robot) :
  (-6 <= i < 6 ->
   exists st',
     show_selection w fuel i st = (Ret tt, st') /\
     trace st' = trace st ++ show_selection_events w fuel (i mod 6)) /\
  (i < -6 \/ 6 <= i ->
   show_selection w fuel i st = (Raise IndexError, st) /\
   set_mission_light w i st = (Raise IndexError, st)).
Proof.
  split.
  - intros H.
    assert (i = -6 \/ i = -5 \/ i = -4 \/ i = -3 \/ i = -2 \/ i = -1 \/
            i = 0 \/ i = 1 \/ i = 2 \/ i = 3 \/ i = 4 \/ i = 5) as Hs by lia.
    repeat (destruct Hs as [-> | Hs]); try subst i;
      (eexists; split; [reflexivity|]; cbn -[app]; rewrite <- !app_assoc;
       reflexivity).
  - intros H. unfold show_selection, set_mission_light, index, bind.
    cbn [MISSIONS MISSION_COLORS List.length].
    destruct (i <? 0) eqn:Hneg.
    + apply Z.ltb_lt in Hneg.
      replace (0 <=? i + Z.of_nat 6) with false by (symmetry; apply Z.leb_gt; lia).
      now split.
    + apply Z.ltb_ge in Hneg.
      replace (i <? Z.of_nat 6) with false by (symmetry; apply Z.ltb_ge; lia).
      rewrite andb_false_r. now split.
Qed.

Lemma show_selection_all_or_nothing_witness :
  (exists st',
      show_selection w_stuck 1 (-1) st0 = (Ret tt, st') /\
      trace st' = trace st0 ++ show_selection_events w_stuck 1 (-1 mod 6)) /\
  (show_selection w_stuck 1 6 st0 = (Raise IndexError, st0) /\
   set_mission_light w_stuck 6 st0 = (Raise IndexError, st0)).
Proof.
  split.
  - apply (proj1 (show_selection_all_or_nothing w_stuck 1 (-1) st0)). lia.
  - apply (proj2 (show_selection_all_or_nothing w_stuck 1 6 st0)). lia.
Defined.

(** ** More on the turn *)

Lemma Qgeb_true_iff (x y : Q) : Qgeb x y = true <-> (y <= x)%Q.
Proof. unfold Qgeb. apply Qle_bool_iff. Qed.

Lemma Qgeb_false_iff (x y : Q) : Qgeb x y = false <-> (x < y)%Q.
Proof.
  unfold Qgeb. split.
  - intros H. apply Qnot_le_lt. intros Hle. apply Qle_bool_iff in Hle. congruence.
  - intros H. destruct (Qle_bool y x) eqn:E; [|reflexivity].
    apply Qle_bool_iff in E. exfalso. exact (Qlt_not_le _ _ H E).
Qed.

(** A target of zero: [gyro_turn] resets the heading, waits, polls once,
    and stops the drive motors without ever having run them, whatever the
    sensor reads. *)
Theorem gyro_turn_zero_target_does_not_turn
        (w : World) (fuel : nat) (target_deg : Q) (slow_turn axis_turn : bool)
        (st : Robot) :
  (target_deg == 0)%Q ->
  (0 < fuel)%nat ->
  button_in CENTER (pressed_at w (2 + tick st)) = false ->
  no_fault w (4 + tick st) 2 ->
  exists st',
    gyro_turn w fuel target_deg slow_turn axis_turn st = (Ret tt, st') /\
    trace st' =
      trace st ++
      [ Did (imu_reset_heading 0); Did (wait_ms 150);
        Pressed (pressed_at w (2 + tick st));
        Heading (heading_at w (3 + tick st));
        Did (motor_stop left_motor); Did (motor_stop right_motor);
        Did (wait_ms 100) ].
Proof.
  intros Ht Hfuel Hc Hf.
  pose proof (no_fault_at w _ _ 0 Hf ltac:(lia)) as F0.
  pose proof (no_fault_at w _ _ 1 Hf ltac:(lia)) as F1.
  cbn [Nat.add] in F0, F1, Hc.
  assert (forall h, Qgeb (Qabs (normalize_heading h)) (Qabs target_deg) = true) as Hz.
  { intros h. apply Qgeb_true_iff. rewrite Ht. apply Qabs_nonneg. }
  rewrite gyro_turn_eq. destruct fuel as [|n]; [lia|].
  cbn [gyro_turn_loop]. unfold gyro_turn_body.
  assert (tick (gyro_turn_head st) = S (S (tick st))) as Hh
      by (unfold gyro_turn_head; now rewrite !tick_log).
  unfold bind at 1. unfold bind at 1. unfold bind at 1.
  rewrite (emergency_stop_check_clear w (gyro_turn_head st))
    by (rewrite Hh; exact Hc).
  unfold bind at 1, imu_heading at 1. rewrite Hz. cbn [ret].
  unfold bind, wait, call. cbn [is_actuator].
  rewrite !tick_log, Hh, F0, tick_done, !tick_log, Hh, F1.
  eexists. split; [reflexivity|].
  unfold gyro_turn_head. cbn -[app]. rewrite <- !app_assoc. reflexivity.
Qed.

Lemma gyro_turn_zero_target_does_not_turn_witness :
  exists st',
    gyro_turn w_fake 1 0 false true st0 = (Ret tt, st') /\
    trace st' =
      trace st0 ++
      [ Did (imu_reset_heading 0); Did (wait_ms 150);
        Pressed (pressed_at w_fake (2 + tick st0));
        Heading (heading_at w_fake (3 + tick st0));
        Did (motor_stop left_motor); Did (motor_stop right_motor);
        Did (wait_ms 100) ].
Proof.
  apply (gyro_turn_zero_target_does_not_turn w_fake 1 0 false true st0).
  - reflexivity.
  - lia.
  - reflexivity.
  - intros i _. reflexivity.
Defined.

(** The reading that would end a turn of more than 180 degrees is folded
    away by the normalization. *)
Lemma normalize_heading_short_of_large_target (target_deg h : Q) :
  (180 < Qabs target_deg)%Q ->
  (- Qabs target_deg < h)%Q ->
  (h < 360 + Qabs target_deg)%Q ->
  Qgeb (Qabs (normalize_heading h)) (Qabs target_deg) = false.
Proof.
  intros Ht Hlo Hhi. apply Qgeb_false_iff. apply Qabs_Qlt_condition.
  unfold normalize_heading, Qgtb.
  destruct (Qle_bool h 180) eqn:E; cbn [negb].
  - apply Qle_bool_iff in E. split; [exact Hlo | lra].
  - assert (180 < h)%Q as Hgt.
    { apply Qnot_le_lt. intros Hle. apply Qle_bool_iff in Hle. congruence. }
    split; lra.
Qed.

(** A turn of more than 180 degrees.  While the heading the sensor reports
    stays between [-|target|] and [360 + |target|], no poll ends the turn:
    a heading that grows past [|target|] is compared after 360 was
    subtracted from it, so the robot has to turn a full circle more before
    [gyro_turn] returns (CENTER never pressed, no device failing). *)
Theorem gyro_turn_over_180_needs_a_full_circle_more
        (w : World) (fuel : nat) (target_deg : Q) (slow_turn axis_turn : bool)
        (st : Robot) :
  (180 < Qabs target_deg)%Q ->
  (forall t, button_in CENTER (pressed_at w t) = false) ->
  (forall t, fault_at w t = None) ->
  (forall t, (- Qabs target_deg < heading_at w t)%Q /\
             (heading_at w t < 360 + Qabs target_deg)%Q) ->
  fst (gyro_turn w fuel target_deg slow_turn axis_turn st) = OutOfFuel.
Proof.
  intros Ht Hc Hf Hh. apply gyro_turn_diverges. intros j.
  split; [apply Hc|]. split.
  - destruct (Hh (1 + (5 * j + (2 + tick st)))%nat) as [Hlo Hhi].
    now apply normalize_heading_short_of_large_target.
  - intros i _. apply Hf.
Qed.

Lemma gyro_turn_over_180_needs_a_full_circle_more_witness :
  fst (gyro_turn
         {| pressed_at := fun _ => [];
            heading_at := fun _ => 250%Q;
            fault_at := fun _ => None |}
         7 (-200) false true st0) = OutOfFuel.
Proof.
  apply (gyro_turn_over_180_needs_a_full_circle_more
           {| pressed_at := fun _ => [];
              heading_at := fun _ => 250%Q;
              fault_at := fun _ => None |}
           7 (-200) false true st0).
  - reflexivity.
  - reflexivity.
  - reflexivity.
  - intros t. split; reflexivity.
Defined.

(** A motor that fails in the turn.  When the first poll of [gyro_turn]
    runs the left motor and the [run] of the right motor raises [e], the
    turn raises [e] with the left motor still running: nothing stops it.
    The launcher then reports the error and shows the selection again
    with that motor running. *)
Theorem gyro_turn_failure_leaves_left_motor_running
        (w : World) (fuel : nat) (target_deg : Q) (slow_turn axis_turn : bool)
        (st : Robot) (e : exn) :
  (0 < fuel)%nat ->
  button_in CENTER (pressed_at w (2 + tick st)) = false ->
  Qgeb (Qabs (normalize_heading (heading_at w (3 + tick st)))) (Qabs target_deg) = false ->
  fault_at w (4 + tick st) = None ->
  fault_at w (5 + tick st) = Some e ->
  exists st',
    gyro_turn w fuel target_deg slow_turn axis_turn st = (Raise e, st') /\
    motor_speed st' left_motor <> 0 /\
    (exists tr v v',
        trace st' = tr ++ [Did (motor_run left_motor v);
                           Failed (motor_run right_motor v') e]) /\
    forall (name : string) (pre post : list (M unit)) (selected : Z) (st_l : Robot),
      0 <= selected < 6 ->
      run_steps pre (snd (announce_start w name st_l)) = (Ret tt, st) ->
      exists st'',
        launch w fuel
          (name,
           run_steps (pre ++ gyro_turn w fuel target_deg slow_turn axis_turn :: post))
          selected st_l = (Ret tt, st'') /\
        motor_speed st'' left_motor <> 0.
Proof.
  intros Hfuel Hc Hh F0 F1. cbn [Nat.add] in Hc, Hh, F0, F1.
  assert (tick (gyro_turn_head st) = S (S (tick st))) as Hhd
      by (unfold gyro_turn_head; now rewrite !tick_log).
  assert (exists st',
             gyro_turn w fuel target_deg slow_turn axis_turn st = (Raise e, st') /\
             motor_speed st' left_motor <> 0 /\
             exists tr v v',
               trace st' = tr ++ [Did (motor_run left_motor v);
                                  Failed (motor_run right_motor v') e])
    as (st' & Hg & Hm & Htr).
  { rewrite gyro_turn_eq. destruct fuel as [|n]; [lia|].
    cbn [gyro_turn_loop]. unfold gyro_turn_body.
    unfold bind at 1. unfold bind at 1. unfold bind at 1.
    rewrite (emergency_stop_check_clear w (gyro_turn_head st))
      by (rewrite Hhd; exact Hc).
    unfold bind at 1, imu_heading at 1. rewrite tick_log, Hhd, Hh.
    unfold bind, call. cbn [is_actuator].
    destruct (Qgtb target_deg 0);
      rewrite !tick_log, Hhd, F0, tick_done, !tick_log, Hhd, F1;
      (eexists; split; [reflexivity|]; split;
       [ destruct slow_turn, axis_turn; cbn; discriminate
       | eexists; eexists; eexists; cbn -[app]; rewrite <- app_assoc;
         reflexivity ]). }
  exists st'. split; [exact Hg|]. split; [exact Hm|]. split; [exact Htr|].
  intros name pre post selected st_l Hsel Hpre.
  pose proof (run_steps_raise pre post _ _ _ _ _ Hpre Hg) as Hrun.
  destruct (launch_Raise w fuel name _ selected st_l st' e Hsel Hrun)
    as (st'' & Hl & _ & Hms).
  exists st''. split; [exact Hl|]. now rewrite Hms.
Qed.

Lemma gyro_turn_failure_leaves_left_motor_running_witness :
  exists st',
    gyro_turn (w_fault_at 5 (OSError 19)) 1 45 false true st0 =
      (Raise (OSError 19), st') /\
    motor_speed st' left_motor <> 0.
Proof.
  destruct (gyro_turn_failure_leaves_left_motor_running
              (w_fault_at 5 (OSError 19)) 1 45 false true st0 (OSError 19))
    as (st' & Hg & Hm & _); first [lia | reflexivity | idtac].
  exists st'. now split.
Defined.

(** ** The drive motors at the end of a mission *)

Section DriveStopped.

Variable w : World.
Variable fuel : nat.

(** A block returns only if each part of it returned. *)
Lemma run_steps_app_inv_Ret (pre rest : list (M unit)) (st st' : Robot) :
  run_steps (pre ++ rest) st = (Ret tt, st') ->
  exists st1, run_steps pre st = (Ret tt, st1) /\ run_steps rest st1 = (Ret tt, st').
Proof.
  revert st. induction pre as [|s pre IH]; intros st H.
  - exists st. now split.
  - cbn [app run_steps] in H. apply bind_inv_Ret in H.
    destruct H as ([] & st1 & Hs & H).
    destruct (IH st1 H) as (st2 & Hpre & Hrest).
    exists st2. split; [|exact Hrest].
    cbn [run_steps]. now rewrite (bind_Ret _ _ _ _ _ Hs).
Qed.

(** [drive_cm] that returns ended with a [robot.stop()] that returned. *)
Lemma drive_cm_Ret (d v a : number) (st st' : Robot) :
  drive_cm w d v a st = (Ret tt, st') ->
  trace st' =
    (trace st ++ [ Did (robot_settings (times_10 v) (times_10 a));
                   Did (robot_straight (times_10 d)) ]) ++
    [Did robot_stop] /\
  drive_stopped st'.
Proof.
  intros H. unfold drive_cm, bind in H.
  repeat match type of H with
         | context [call w ?c ?s] =>
             destruct (call_cases w c s) as [Hc | (? & _ & _ & Hc)];
             rewrite Hc in H; clear Hc
         end; try discriminate.
  inversion H. split; [|now split].
  cbn -[app]. rewrite <- !app_assoc. reflexivity.
Qed.

(** Moves of the arms, on ports C and D, do nothing to the drive. *)
Lemma arm_moves_keep_drive (post : list (M unit)) (st st' : Robot) :
  Forall (fun s => exists m degrees speed,
                     (m = motor_c \/ m = motor_d) /\
                     s = run_motor_for_degrees w m degrees speed) post ->
  run_steps post st = (Ret tt, st') ->
  exists tail,
    trace st' = trace st ++ tail /\
    forallb (fun ev => negb (is_drive_cmd ev)) tail = true /\
    motor_speed st' left_motor = motor_speed st left_motor /\
    motor_speed st' right_motor = motor_speed st right_motor.
Proof.
  intros Hpost. revert st. induction Hpost as [|s post Hs _ IH]; intros st H.
  - unfold run_steps, ret in H. inversion H; subst st'.
    exists []. rewrite app_nil_r. now repeat split.
  - cbn [run_steps] in H. apply bind_inv_Ret in H.
    destruct H as ([] & st1 & H1 & H).
    destruct Hs as (m & degrees & speed & Hm & ->).
    unfold run_motor_for_degrees in H1.
    destruct (call_cases w (motor_run_angle m speed degrees) st)
      as [Hc | (? & _ & _ & Hc)]; rewrite Hc in H1; [|discriminate].
    inversion H1; subst st1. clear H1 Hc.
    destruct (IH _ H) as (tail & Htr & Hq & Hl & Hr).
    exists (Did (motor_run_angle m speed degrees) :: tail).
    split; [|split; [|split]].
    + rewrite Htr. cbn [trace]. rewrite <- app_assoc. reflexivity.
    + cbn [forallb]. rewrite Hq.
      destruct Hm as [-> | ->]; reflexivity.
    + rewrite Hl. destruct Hm as [-> | ->]; reflexivity.
    + rewrite Hr. destruct Hm as [-> | ->]; reflexivity.
Qed.

(** A block whose last command to the drive is a [drive_cm], followed by
    moves of the arms only. *)
Lemma ends_with_drive_stop_block
      (pre post : list (M unit)) (d v a : number) :
  Forall (fun s => exists m degrees speed,
                     (m = motor_c \/ m = motor_d) /\
                     s = run_motor_for_degrees w m degrees speed) post ->
  ends_with_drive_stop (run_steps (pre ++ drive_cm w d v a :: post)).
Proof.
  intros Hpost st st' H.
  apply run_steps_app_inv_Ret in H. destruct H as (st1 & _ & H).
  cbn [run_steps] in H. apply bind_inv_Ret in H.
  destruct H as ([] & st2 & Hd & H).
  apply drive_cm_Ret in Hd. destruct Hd as (Htr2 & Hl2 & Hr2).
  destruct (arm_moves_keep_drive post st2 st' Hpost H) as (tail & Htr & Hq & Hl & Hr).
  split.
  - split; congruence.
  - eexists. exists tail. split; [|exact Hq].
    rewrite Htr, Htr2, <- app_assoc. reflexivity.
Qed.

End DriveStopped.

(** A mission that returns has stopped the drive last.  Whatever the
    sensor and the buttons did on the way, when any of the six missions
    returns normally, the last command to the drive base or to a drive
    motor that its trace holds is a [robot.stop()] that returned (the one
    that ends the last [drive_cm] of the mission), only moves of the arms
    can follow it, and both drive motors are at speed 0. *)
Theorem missions_return_with_the_drive_stopped (w : World) (fuel : nat) :
  Forall ends_with_drive_stop
         [ mission_0 w fuel; mission_1 w fuel; mission_2 w fuel;
           mission_3 w; mission_4 w fuel; mission_5 w fuel ].
Proof.
  repeat (apply Forall_cons); try apply Forall_nil.
  - exact (ends_with_drive_stop_block w
             (firstn 16 (mission_0_steps w fuel)) [] (-30) 30 50 (Forall_nil _)).
  - exact (ends_with_drive_stop_block w
             (firstn 19 (mission_1_steps w fuel)) [] (-40) 300 50 (Forall_nil _)).
  - exact (ends_with_drive_stop_block w
             (firstn 10 (mission_2_steps w fuel)) [] 195 500 500 (Forall_nil _)).
  - exact (ends_with_drive_stop_block w
             (firstn 5 (mission_3_steps w)) [] (-50) 30 10 (Forall_nil _)).
  - exact (ends_with_drive_stop_block w
             (firstn 12 (mission_4_steps w fuel)) [] 61 30 500 (Forall_nil _)).
  - apply (ends_with_drive_stop_block w
             (firstn 15 (mission_5_steps w fuel))
             [run_motor_for_degrees w motor_d 500 300] 10 30 5).
    apply Forall_cons; [|apply Forall_nil].
    exists motor_d, 500, 300. split; [now right | reflexivity].
Qed.

(** Mission 5 on a robot that turns: its three turns have run the drive
    motors, and it returns with both at rest, the last command to the
    drive being a [robot.stop()]. *)
Lemma missions_return_with_the_drive_stopped_witness :
  fst (mission_5 w_turning 10 st0) = Ret tt /\
  existsb (fun ev => match ev with
                     | Did (motor_run left_motor 100) => true
                     | _ => false
                     end)
          (trace (snd (mission_5 w_turning 10 st0))) = true /\
  drive_stopped (snd (mission_5 w_turning 10 st0)) /\
  exists tr tail,
    trace (snd (mission_5 w_turning 10 st0)) = tr ++ Did robot_stop :: tail /\
    forallb (fun ev => negb (is_drive_cmd ev)) tail = true.
Proof.
  split; [vm_compute; reflexivity|]. split; [vm_compute; reflexivity|].
  pose proof (missions_return_with_the_drive_stopped w_turning 10) as H.
  apply Forall_forall with (x := mission_5 w_turning 10) in H.
  - apply (H st0). vm_compute. reflexivity.
  - cbn. auto 10.
Defined.

(** ** Where the emergency stop is not polled *)

Lemma call_same_faults (w w' : World) (c : cmd) (st : Robot) :
  (forall t, fault_at w t = fault_at w' t) -> call w c st = call w' c st.
Proof. intros H. unfold call. now rewrite H. Qed.

Lemma bind_same {A B} (m m' : M A) (k k' : A -> M B) (st : Robot) :
  m st = m' st -> (forall a st1, k a st1 = k' a st1) ->
  bind m k st = bind m' k' st.
Proof.
  intros Hm Hk. unfold bind. rewrite Hm.
  destruct (m' st) as [[a|e|] st1]; [apply Hk | reflexivity | reflexivity].
Qed.

(** Straight moves and arm moves are blind to the buttons.  [drive_cm],
    [run_motor_for_degrees] and [setup_drive] never read the buttons or the
    heading: in two worlds whose devices fail alike they do the same,
    whatever is pressed.  So mission 3, which is made of them alone, runs
    to its end or to a device failure however CENTER is pressed. *)
Theorem straight_and_arm_moves_ignore_the_buttons (w w' : World) :
  (forall t, fault_at w t = fault_at w' t) ->
  (forall d v a st, drive_cm w d v a st = drive_cm w' d v a st) /\
  (forall m degrees speed st,
      run_motor_for_degrees w m degrees speed st =
      run_motor_for_degrees w' m degrees speed st) /\
  (forall st, setup_drive w st = setup_drive w' st) /\
  (forall st, mission_3 w st = mission_3 w' st).
Proof.
  intros Hf.
  assert (Hcall : forall c st, call w c st = call w' c st)
    by (intros; now apply call_same_faults).
  assert (Hdrive : forall d v a st, drive_cm w d v a st = drive_cm w' d v a st).
  { intros. unfold drive_cm.
    repeat (apply bind_same; [apply Hcall | intros _ ?]). apply Hcall. }
  assert (Hsetup : forall st, setup_drive w st = setup_drive w' st).
  { intros. unfold setup_drive, beep_ok, beep.
    repeat (apply bind_same; [apply Hcall | intros _ ?]). apply Hcall. }
  split; [exact Hdrive|]. split; [intros; apply Hcall|]. split; [exact Hsetup|].
  intros st. unfold mission_3, mission_3_steps. cbn [run_steps].
  apply bind_same; [apply Hsetup | intros _ ?].
  apply bind_same; [apply Hcall | intros _ ?].
  repeat (apply bind_same; [apply Hdrive | intros _ ?]).
  reflexivity.
Qed.

Lemma straight_and_arm_moves_ignore_the_buttons_witness :
  mission_3 w_stuck st0 = mission_3 (w_buttons (fun _ => [CENTER])) st0.
Proof.
  apply (proj2 (proj2 (proj2 (straight_and_arm_moves_ignore_the_buttons
                                w_stuck (w_buttons (fun _ => [CENTER]))
                                (fun t => eq_refl))))).
Defined.

(** A button that stays down holds the selector.  After a pass of [main]'s
    loop has read RIGHT or LEFT, it polls for the release and does nothing
    else: while the button is seen pressed at every such poll the pass
    does not end, whatever else is pressed meanwhile (CENTER included: the
    emergency stop is not checked there), and nothing is done to the
    robot. *)
Theorem held_button_holds_the_selector
        (w : World) (fuel : nat) (b : Button) (selected : Z) (st : Robot) :
  b = RIGHT \/ b = LEFT ->
  0 <= selected < 6 ->
  button_in CENTER (pressed_at w (tick st)) = false ->
  pressed_at w (1 + tick st) = [b] ->
  (forall j, button_in b (pressed_at w (2 * j + (4 + tick st))) = true) ->
  fst (main_body w fuel selected st) = OutOfFuel /\
  quiet st (snd (main_body w fuel selected st)).
Proof.
  intros Hb Hsel Hc Hp Hheld. split.
  - unfold main_body.
    rewrite (bind_Ret _ _ _ _ _ (emergency_stop_check_clear w st Hc)).
    unfold bind at 1, buttons_pressed at 1. rewrite tick_log.
    change (S (tick st)) with (1 + tick st)%nat. rewrite Hp.
    remember (log (Pressed [b]) (log (Pressed (pressed_at w (tick st))) st)) as st_p.
    assert (tick st_p = (2 + tick st)%nat) as Htp
        by (subst st_p; now rewrite !tick_log).
    set (s' := match b with
               | RIGHT => select_next w fuel selected
               | _ => select_previous w fuel selected
               end).
    assert (0 <= s' < 6) as Hs'.
    { subst s'. destruct Hb as [-> | ->];
        [apply select_next_range | apply select_previous_range]. }
    destruct (show_selection_trace w fuel s' st_p Hs') as (st1 & Hs & Ht1 & _).
    assert (fst (wait_released w fuel b st1) = OutOfFuel) as Hw.
    { apply wait_released_stuck. intros j. rewrite Ht1, Htp.
      replace (2 * j + (2 + (2 + tick st)))%nat with (2 * j + (4 + tick st))%nat
        by lia.
      apply Hheld. }
    destruct (wait_released w fuel b st1) as [r st2] eqn:Ew. cbn [fst] in Hw.
    subst r s'.
    destruct Hb as [-> | ->]; cbn [button_in existsb Button_eqb orb];
      unfold bind, ret; rewrite Hs; lazy beta iota; rewrite Ew; reflexivity.
  - apply selecting_does_nothing_to_the_robot; [exact Hc|].
    rewrite Hp. now destruct Hb as [-> | ->].
Qed.

Lemma held_button_holds_the_selector_witness :
  fst (main_body (w_buttons (fun t => if Nat.eqb t 0 then [] else [LEFT])) 9 2 st0) =
    OutOfFuel /\
  quiet st0
    (snd (main_body (w_buttons (fun t => if Nat.eqb t 0 then [] else [LEFT])) 9 2 st0)).
Proof.
  apply (held_button_holds_the_selector
           (w_buttons (fun t => if Nat.eqb t 0 then [] else [LEFT])) 9 LEFT 2 st0).
  - now right.
  - lia.
  - reflexivity.
  - reflexivity.
  - intros j. replace (2 * j + (4 + tick st0))%nat with (S (2 * j + 3)) by (cbn; lia).
    reflexivity.
Defined.
